(** * The root-archive filesystem reconciler (app/bg/filesystem/index.js)

    A shallow embedding of the module that keeps the browsing profile's
    root archive in shape: the fixed directories, one mount per user, the
    default-user alias, the sweep of old user mounts and the allocation of
    names under the library.

    The module is effectful throughout (two module-level variables, a
    logger, the archive's [pda] interface, the profile database), so the
    embedding is a state-and-exception monad over an explicit [world].
    Everything the module imports is kept apart in an environment [Env]:
    the [PATHS] table, the slug function, the URL resolver, the user list
    and the schedule of external calls that fail. *)

From Stdlib Require Import NArith Lia Ascii String.
From stdpp Require Import base option list strings pretty gmap fin_maps.


(** ** Data *)

(** What can sit at a path of the root archive. *)
Inductive node : Type :=
| File (content : string)
| Dir
| Mount (key : string).

(** The part of a [stat] result the module looks at: [st.isDirectory()]
    and [st.mount] (whose key is kept in its hex form, i.e. as
    [st.mount.key.toString('hex')]). *)
Record Stat : Type := mkStat {
  st_isDirectory : bool;
  st_mount : option string
}.

(** A mount point is reported like the root directory of what is mounted. *)
Definition stat_of (n : node) : Stat :=
  match n with
  | File _ => mkStat false None
  | Dir => mkStat true None
  | Mount k => mkStat true (Some k)
  end.

(** [import('./users').User], the four fields read here. *)
Record User : Type := mkUser {
  label : string;
  url : string;
  isDefault : bool;
  isTemporary : bool
}.

(** The [PATHS] table of lib/const, as far as this module uses it. *)
Record PATHS_t : Type := mkPATHS {
  DATA : string;
  DATA_NS : string → string;
  LIBRARY : string;
  SETTINGS : string;
  USERS : string;
  USER : string → string;
  DEFAULT_USER : string
}.

(** The row [SELECT * FROM profiles WHERE id = 0]. *)
Record profile : Type := mkProfile { profile_url : option string }.

(** Calls that leave the module. *)
Inductive op : Type :=
| TrashSetup
| DbGet
| CreateNewRootArchive
| DbRun (u : string)
| GetOrLoadArchive (u : string)
| UsersSetup
| FromURLToKey (u : string)
| PdaStat (path : string)
| PdaMkdir (path : string)
| PdaMount (path key : string)
| PdaUnmount (path : string)
| PdaReaddir (path : string).

Inductive error : Type :=
| Failure (o : op)                      (* the external call rejected *)
| TypeError (what : string)             (* property read on undefined *)
| NotFoundError (path : string)
| EntryAlreadyExistsError (path : string)
| NotAMountError (path : string)
| InvalidURLError (u : string)
| Error (msg : string).                 (* [new Error(msg)] *)

Inductive level : Type := LInfo | LError | LConsole.

(** One line of diagnostics: the sink, the message, and the path (or url)
    it is about. *)
Record diag : Type := mkDiag {
  d_level : level;
  d_msg : string;
  d_about : string
}.

(** What a JavaScript caller gets back from an exported function. *)
Inductive jsval : Type :=
| JSUndefined
| JSString (s : string).

#[global] Instance node_eq_dec : EqDecision node.
Proof. solve_decision. Defined.
#[global] Instance op_eq_dec : EqDecision op.
Proof. solve_decision. Defined.
#[global] Instance error_eq_dec : EqDecision error.
Proof. solve_decision. Defined.

(** ** The world *)

Record world : Type := mkWorld {
  fs : gmap string node;              (* the root archive's namespace *)
  db_profile : option profile;        (* the profiles table, row 0 *)
  browsingProfile : option profile;   (* [var browsingProfile] *)
  rootArchive : option string;        (* [var rootArchive], by its url *)
  trace : list op;                    (* external calls made, oldest first *)
  log : list diag                     (* diagnostics, oldest first *)
}.

Definition set_fs (f : gmap string node → gmap string node) (w : world) : world :=
  mkWorld (f (fs w)) (db_profile w) (browsingProfile w) (rootArchive w) (trace w) (log w).
Definition set_db_profile (p : option profile) (w : world) : world :=
  mkWorld (fs w) p (browsingProfile w) (rootArchive w) (trace w) (log w).
Definition set_browsingProfile (p : option profile) (w : world) : world :=
  mkWorld (fs w) (db_profile w) p (rootArchive w) (trace w) (log w).
Definition set_rootArchive (a : option string) (w : world) : world :=
  mkWorld (fs w) (db_profile w) (browsingProfile w) a (trace w) (log w).
Definition add_trace (o : op) (w : world) : world :=
  mkWorld (fs w) (db_profile w) (browsingProfile w) (rootArchive w) (trace w ++ [o]) (log w).
Definition add_log (d : diag) (w : world) : world :=
  mkWorld (fs w) (db_profile w) (browsingProfile w) (rootArchive w) (trace w) (log w ++ [d]).

(** ** The monad: state and exceptions *)

Inductive outcome (A : Type) : Type :=
| Ok (a : A)
| Throw (e : error).
Arguments Ok {A} a.
Arguments Throw {A} e.

Definition M (A : Type) : Type := world → outcome A * world.

Definition ret {A} (a : A) : M A := λ w, (Ok a, w).
Definition throw {A} (e : error) : M A := λ w, (Throw e, w).
Definition bind {A B} (m : M A) (k : A → M B) : M B :=
  λ w, match m w with
       | (Ok a, w') => k a w'
       | (Throw e, w') => (Throw e, w')
       end.
(** [try { m } catch (e) { h e }] *)
Definition try_catch {A} (m : M A) (h : error → M A) : M A :=
  λ w, match m w with
       | (Ok a, w') => (Ok a, w')
       | (Throw e, w') => h e w'
       end.
Definition gets {A} (f : world → A) : M A := λ w, (Ok (f w), w).
Definition modify (f : world → world) : M unit := λ w, (Ok tt, f w).

Notation "'let!' x ':=' m 'in' k" := (bind m (λ x, k))
  (at level 10, x binder, m at level 100, k at level 200).
Notation "m '>>' k" := (bind m (λ _, k))
  (at level 90, right associativity).

(** [for (let x of l) body x] *)
Fixpoint for_of {A} (l : list A) (body : A → M unit) : M unit :=
  match l with
  | [] => ret tt
  | x :: l' => body x >> for_of l' body
  end.

(** [for (let i = lo; ...; i++) body i], run for [n] rounds at most; when
    the body [return]s [Some r] the loop is left with that value.  The
    recursion is on the binary [n] so that a ceiling like 1e9 costs
    nothing until it is reached. *)
Fixpoint for_upto {R} (n : positive) (i : N) (body : N → M (option R)) : M (option R) :=
  match n with
  | xH => body i
  | xO n' =>
      let! r := for_upto n' i body in
      match r with
      | Some x => ret (Some x)
      | None => for_upto n' (i + Npos n') body
      end
  | xI n' =>
      let! r := body i in
      match r with
      | Some x => ret (Some x)
      | None =>
          let! r := for_upto n' (i + 1) body in
          match r with
          | Some x => ret (Some x)
          | None => for_upto n' (i + 1 + Npos n') body
          end
      end
  end.

(** [for (let i = lo; i < hi; i++) body i] *)
Definition for_range {R} (lo hi : N) (body : N → M (option R)) : M (option R) :=
  match (hi - lo)%N with
  | N0 => ret None
  | Npos n => for_upto n lo body
  end.

(** The same loop, one round at a time. *)
Fixpoint for_rounds {R} (rounds : nat) (i : N) (body : N → M (option R)) : M (option R) :=
  match rounds with
  | O => ret None
  | S rounds' =>
      let! r := body i in
      match r with
      | Some x => ret (Some x)
      | None => for_rounds rounds' (i + 1) body
      end
  end.

(** ** JavaScript strings *)

(** Strings hold UTF-8.  White space is what [String.prototype.trim] and
    the class [\s] take for it: the white space and the line terminators
    of ECMAScript.  On the ASCII range these are tab, LF, VT, FF, CR and
    space. *)
Definition js_is_space (c : ascii) : bool :=
  match N_of_ascii c with
  | 9%N | 10%N | 11%N | 12%N | 13%N | 32%N => true
  | _ => false
  end.

(** In two bytes: U+00A0 (C2 A0). *)
Definition js_is_space2 (c d : ascii) : bool :=
  ((N_of_ascii c =? 194) && (N_of_ascii d =? 160))%N.

(** In three bytes: U+1680 (E1 9A 80), U+2000 to U+200A (E2 80 80 to 8A),
    U+2028 and U+2029 (E2 80 A8, A9), U+202F (E2 80 AF), U+205F (E2 81 9F),
    U+3000 (E3 80 80) and U+FEFF (EF BB BF). *)
Definition js_is_space3 (c d e : ascii) : bool :=
  let '(c, d, e) := (N_of_ascii c, N_of_ascii d, N_of_ascii e) in
  ((c =? 225) && (d =? 154) && (e =? 128)
   || (c =? 226) && (d =? 128)
      && ((128 <=? e) && (e <=? 138) || (e =? 168) || (e =? 169) || (e =? 175))
   || (c =? 226) && (d =? 129) && (e =? 159)
   || (c =? 227) && (d =? 128) && (e =? 128)
   || (c =? 239) && (d =? 187) && (e =? 191))%N.

Fixpoint trimStart (s : string) : string :=
  match s with
  | String c r =>
      if js_is_space c then trimStart r
      else
        match r with
        | String d r1 =>
            if js_is_space2 c d then trimStart r1
            else
              match r1 with
              | String e r2 => if js_is_space3 c d e then trimStart r2 else s
              | EmptyString => s
              end
        | EmptyString => s
        end
  | EmptyString => EmptyString
  end.

(** Nothing but white space. *)
Definition all_space (s : string) : bool :=
  bool_decide (trimStart s = "").

(** What is left of [s] once its last white space is gone: the bytes up
    to the point from which on there is white space only. *)
Fixpoint trimEnd (s : string) : string :=
  match s with
  | String c r => if all_space s then EmptyString else String c (trimEnd r)
  | EmptyString => EmptyString
  end.

Definition trim (s : string) : string := trimEnd (trimStart s).

Definition lower_ascii (c : ascii) : ascii :=
  let n := N_of_ascii c in
  if ((65 <=? n) && (n <=? 90))%N then ascii_of_N (n + 32) else c.

Fixpoint toLowerCase (s : string) : string :=
  match s with
  | String c r => String (lower_ascii c) (toLowerCase r)
  | EmptyString => EmptyString
  end.

(** The segments of a path, between its slashes. *)
Fixpoint split_slash (s : string) : list string :=
  match s with
  | String c r =>
      if decide (c = "/"%char) then "" :: split_slash r
      else
        match split_slash r with
        | seg :: rest => String c seg :: rest
        | [] => [String c ""]
        end
  | EmptyString => [""]
  end.

(** One segment more on the segments kept so far (the last one first):
    an empty segment and [.] are dropped, [..] takes the last segment
    away, and is kept itself only where the path is relative and there is
    nothing left to take away. *)
Definition push_segment (allowAboveRoot : bool) (kept : list string) (seg : string)
  : list string :=
  if decide (seg = "") then kept
  else if decide (seg = ".") then kept
  else if decide (seg = "..") then
    match kept with
    | top :: rest =>
        if decide (top = "..") then (if allowAboveRoot then seg :: kept else kept)
        else rest
    | [] => if allowAboveRoot then [seg] else []
    end
  else seg :: kept.

(** The segments kept, the last one first, joined by slashes. *)
Fixpoint join_kept (kept : list string) : string :=
  match kept with
  | [] => ""
  | [seg] => seg
  | seg :: rest => join_kept rest +:+ "/" +:+ seg
  end.

Definition starts_with_slash (s : string) : bool :=
  match s with
  | String c _ => bool_decide (c = "/"%char)
  | EmptyString => false
  end.

Fixpoint ends_with_slash (s : string) : bool :=
  match s with
  | String c EmptyString => bool_decide (c = "/"%char)
  | String _ r => ends_with_slash r
  | EmptyString => false
  end.

(** [path.normalize], of the posix flavour. *)
Definition normalize (path : string) : string :=
  if decide (path = "") then "."
  else
    let isAbsolute := starts_with_slash path in
    let trailingSeparator := ends_with_slash path in
    let body :=
      join_kept (fold_left (push_segment (negb isAbsolute)) (split_slash path) []) in
    if decide (body = "")
    then (if isAbsolute then "/" else if trailingSeparator then "./" else ".")
    else (if isAbsolute then "/" else "") +:+ body
         +:+ (if trailingSeparator then "/" else "").

(** [path.join] of the posix flavour, on two arguments: the arguments
    that are not empty are joined by a slash, and the result is
    normalised. *)
Definition joinPath (a b : string) : string :=
  if decide (a = "") then (if decide (b = "") then "." else normalize b)
  else if decide (b = "") then normalize a
  else normalize (a +:+ "/" +:+ b).

(** ** The archive's directory listing *)

Fixpoint strip_prefix (p s : string) : option string :=
  match p with
  | EmptyString => Some s
  | String c p' =>
      match s with
      | String d s' => if decide (c = d) then strip_prefix p' s' else None
      | EmptyString => None
      end
  end.

Fixpoint has_slash (s : string) : bool :=
  match s with
  | String c r => bool_decide (c = "/"%char) || has_slash r
  | EmptyString => false
  end.

(** The name under which [path] is listed in [dir], if it is a direct
    entry of [dir]. *)
Definition child_name (dir path : string) : option string :=
  match strip_prefix (dir +:+ "/") path with
  | Some n => if bool_decide (n = "") || has_slash n then None else Some n
  | None => None
  end.

Definition readdir_names (m : gmap string node) (dir : string) : list string :=
  omap (λ kv, child_name dir kv.1) (map_to_list m).

(** ** What the module imports *)

Record Env : Type := mkEnv {
  PATHS : PATHS_t;                       (* lib/const *)
  slugify : string → string;             (* the slugify package *)
  url_key : string → option string;      (* what fromURLToKey(url, true) finds *)
  users_list : list User;                (* what users.setup() returns *)
  created_root_url : string;             (* the url of a newly created root *)
  faults : list nat                      (* the external calls that reject,
                                            by their position in the trace *)
}.

Section Filesystem.

Variable E : Env.

(** An external call: it is recorded, and it rejects when the schedule
    says so. *)
Definition external (o : op) : M unit :=
  λ w, if bool_decide (length (trace w) ∈ faults E)
       then (Throw (Failure o), add_trace o w)
       else (Ok tt, add_trace o w).

(** A call through [rootArchive.pda]: reading [.pda] of an unset
    [rootArchive] is a TypeError. *)
Definition pda (o : op) : M unit :=
  let! a := gets rootArchive in
  match a with
  | None => throw (TypeError "rootArchive")
  | Some _ => external o
  end.

(** The five calls of the archive interface used here.  The interface is
    not part of this module; it is taken as the usual one of a
    hierarchical store: [stat] rejects on a path with no node, [mkdir] and
    [mount] reject on a path that has one, [unmount] rejects on anything
    but a mount, [readdir] lists the direct entries of a path.  Any of them
    may also reject because the schedule of [faults] says so. *)
Definition pda_stat (path : string) : M Stat :=
  pda (PdaStat path) >>
  let! m := gets fs in
  match m !! path with
  | Some n => ret (stat_of n)
  | None => throw (NotFoundError path)
  end.

Definition pda_mkdir (path : string) : M unit :=
  pda (PdaMkdir path) >>
  let! m := gets fs in
  match m !! path with
  | Some _ => throw (EntryAlreadyExistsError path)
  | None => modify (set_fs (insert path Dir))
  end.

Definition pda_mount (path key : string) : M unit :=
  pda (PdaMount path key) >>
  let! m := gets fs in
  match m !! path with
  | Some _ => throw (EntryAlreadyExistsError path)
  | None => modify (set_fs (insert path (Mount key)))
  end.

Definition pda_unmount (path : string) : M unit :=
  pda (PdaUnmount path) >>
  let! m := gets fs in
  match m !! path with
  | Some (Mount _) => modify (set_fs (delete path))
  | _ => throw (NotAMountError path)
  end.

Definition pda_readdir (path : string) : M (list string) :=
  pda (PdaReaddir path) >>
  let! m := gets fs in
  ret (readdir_names m path).

(** [dat.archives.fromURLToKey(url, true)] *)
Definition fromURLToKey (u : string) : M string :=
  external (FromURLToKey u) >>
  match url_key E u with
  | Some k => ret k
  | None => throw (InvalidURLError u)
  end.

Definition logger_info (msg about : string) : M unit :=
  modify (add_log (mkDiag LInfo msg about)).
Definition logger_error (msg about : string) : M unit :=
  modify (add_log (mkDiag LError msg about)).
Definition console_error (msg : string) : M unit :=
  modify (add_log (mkDiag LConsole msg "")).

(** ** Internal methods *)

(** [try { return await rootArchive.pda.stat(path) } catch (e) { return null }] *)
Definition stat (path : string) : M (option Stat) :=
  try_catch (let! st := pda_stat path in ret (Some st))
            (λ _, ret None).

Definition ensureDir (path : string) : M unit :=
  try_catch
    (let! st := stat path in
     match st with
     | None =>
         logger_info ("Creating directory " +:+ path) path >>
         pda_mkdir path
     | Some st =>
         if negb (st_isDirectory st)
         then logger_error "Warning! Filesystem expects a folder but an unexpected file exists at this location." path
         else ret tt
     end)
    (λ _, logger_error "Filesystem failed to make directory" path).

Definition ensureMount (path u : string) : M unit :=
  try_catch
    (let! st := stat path in
     let! key := fromURLToKey u in
     match st with
     | None =>
         logger_info ("Adding mount " +:+ path) path >>
         pda_mount path key
     | Some st =>
         match st_mount st with
         | Some oldKey =>
             if negb (String.eqb oldKey key)
             then logger_info "Reassigning mount" path >>
                  pda_unmount path >>
                  pda_mount path key
             else ret tt
         | None =>
             logger_error "Warning! Filesystem expects a mount but an unexpected file exists at this location." path
         end
     end)
    (λ _, logger_error "Filesystem failed to mount archive" path).

Definition ensureUnmount (path : string) : M unit :=
  try_catch
    (let! st := stat path in
     match st with
     | Some (mkStat _ (Some _)) =>
         logger_info "Removing mount" path >>
         pda_unmount path
     | _ => ret tt
     end)
    (λ _, logger_error "Filesystem failed to unmount archive" path).

(** The [i]-th name tried: the slug itself, then [slug-2], [slug-3], ... *)
Definition candidate (basename : string) (i : N) : string :=
  if (i =? 1)%N then basename else basename +:+ "-" +:+ pretty i.

(** [slugify((title || '').trim() || 'untitled').toLowerCase()] *)
Definition basename_of (title : string) : string :=
  let t := trim title in
  toLowerCase (slugify E (if decide (t = "") then "untitled" else t)).

(** [getAvailableName], with the loop's bound [ceiling] (1e9 in the
    source) as an argument. *)
Definition getAvailableNameUpTo (ceiling : N) (containingPath title : string) : M string :=
  let basename := basename_of title in
  let! found :=
    for_range 1 ceiling (λ i,
      let name := candidate basename i in
      let! st := stat (joinPath containingPath name) in
      match st with
      | None => ret (Some name)
      | Some _ => ret None
      end) in
  match found with
  | Some name => ret name
  | None => throw (Error ("Unable to find an available name for " +:+ title))
  end.

Definition getAvailableName : string → string → M string :=
  getAvailableNameUpTo 1000000000.

(** ** Exported api *)

Definition get : M (option string) := gets rootArchive.

Definition isRootUrl (u : string) : M bool :=
  let! p := gets browsingProfile in
  match p with
  | None => throw (TypeError "browsingProfile")
  | Some p => ret (bool_decide (profile_url p = Some u))
  end.

(** Lines 47-62 of [setup]: the profile, the root archive, the users. *)
Definition setup_load : M (list User) :=
  external TrashSetup >>
  external DbGet >>
  let! row := gets db_profile in
  modify (set_browsingProfile row) >>
  let! root :=
    match row with
    | None => throw (TypeError "browsingProfile")
    | Some p =>
        match profile_url p with
        | Some (String c r) => ret (String c r)
        | _ =>
            (* [!browsingProfile.url]: no url yet *)
            external CreateNewRootArchive >>
            let u := created_root_url E in
            logger_info "Root archive created" u >>
            external (DbRun u) >>
            modify (set_db_profile (Some (mkProfile (Some u)))) >>
            modify (set_browsingProfile (Some (mkProfile (Some u)))) >>
            ret u
        end
    end in
  external (GetOrLoadArchive root) >>
  modify (set_rootArchive (Some root)) >>
  external UsersSetup >>
  ret (users_list E).

(** Lines 68-75: the common directories. *)
Definition setup_dirs : M unit :=
  ensureDir (DATA (PATHS E)) >>
  ensureDir (DATA_NS (PATHS E) "unwalled.garden") >>
  ensureDir (joinPath (DATA_NS (PATHS E) "unwalled.garden") "bookmarks") >>
  ensureDir (LIBRARY (PATHS E)) >>
  ensureDir (SETTINGS (PATHS E)) >>
  ensureDir (USERS (PATHS E)).

(** Lines 76-81: the user mounts. *)
Definition setup_mounts (userList : list User) : M unit :=
  for_of userList (λ user,
    (if isDefault user then ensureMount (DEFAULT_USER (PATHS E)) (url user) else ret tt) >>
    (if negb (isTemporary user)
     then ensureMount (USER (PATHS E) (label user)) (url user)
     else ret tt)).

(** Lines 84-94: the old user mounts. *)
Definition setup_sweep (userList : list User) : M unit :=
  let! usersFilenames := pda_readdir (USERS (PATHS E)) in
  for_of usersFilenames (λ filename,
    match List.find (λ u, String.eqb (label u) filename) userList with
    | None =>
        let path := USER (PATHS E) filename in
        let! st := stat path in
        match st with
        | Some (mkStat _ (Some _)) =>
            logger_info "Removing old /users mount" path >>
            pda_unmount path
        | _ => ret tt
        end
    | Some _ => ret tt
    end).

(** Lines 66-100: the [try] block and its [catch]. *)
Definition setup_enforce (userList : list User) : M unit :=
  try_catch
    (setup_dirs >>
     setup_mounts userList >>
     setup_sweep userList)
    (λ _,
       console_error "Error while constructing the root archive" >>
       logger_error "Error while constructing the root archive" "").

Definition setup : M unit :=
  let! userList := setup_load in
  let! p := gets browsingProfile in
  logger_info "Loading root archive" (default "" (p ≫= profile_url)) >>
  setup_enforce userList.

Definition addUser (user : User) : M unit :=
  ensureMount (USER (PATHS E) (label user)) (url user) >>
  (if isDefault user then ensureMount (DEFAULT_USER (PATHS E)) (url user) else ret tt).

Definition removeUser (user : User) : M unit :=
  ensureUnmount (USER (PATHS E) (label user)).

(** [addToLibrary] has no [return]: its caller gets [undefined]. *)
Definition addToLibraryUpTo (ceiling : N) (u title : string) : M jsval :=
  let! name := getAvailableNameUpTo ceiling (LIBRARY (PATHS E)) title in
  ensureMount (joinPath (LIBRARY (PATHS E)) name) u >>
  ret JSUndefined.

Definition addToLibrary : string → string → M jsval :=
  addToLibraryUpTo 1000000000.

End Filesystem.

Arguments external E o w : simpl never.

(** ** A sample environment *)

(** Modelled from the spec: the [PATHS] table of lib/const, which this
    module only imports.  The fixed directories, the owners root with one
    path per label directly under it (the module's own log line calls it
    /users), and a default-alias path outside the owners root. *)
Definition sample_PATHS : PATHS_t := {|
  DATA := "/.data";
  DATA_NS := λ ns, "/.data/" +:+ ns;
  LIBRARY := "/library";
  SETTINGS := "/settings";
  USERS := "/users";
  USER := λ name, "/users/" +:+ name;
  DEFAULT_USER := "/public"
|}.

Definition slug_keeps (c : ascii) : bool :=
  let n := N_of_ascii c in
  ((48 <=? n) && (n <=? 57) || (65 <=? n) && (n <=? 90) || (97 <=? n) && (n <=? 122)
   || (n =? 95) || (n =? 45))%N || js_is_space c.

Fixpoint slug_filter (s : string) : string :=
  match s with
  | String c r => if slug_keeps c then String c (slug_filter r) else slug_filter r
  | EmptyString => EmptyString
  end.

Definition slug_sep (c : ascii) : bool := js_is_space c || bool_decide (c = "-"%char).

(** Runs of white space and dashes become one dash. *)
Fixpoint slug_dashes (in_run : bool) (s : string) : string :=
  match s with
  | String c r =>
      if slug_sep c
      then (if in_run then slug_dashes true r else String "-"%char (slug_dashes true r))
      else String c (slug_dashes false r)
  | EmptyString => EmptyString
  end.

(** Modelled from the spec: the slug function of the slugify package,
    which this module only imports: the title normalised to a URL- and
    path-safe slug.
    Letters, digits, underscore, dash and white space are kept, the rest
    is dropped; the result is trimmed and its runs of white space and
    dashes become single dashes. *)
Definition sample_slugify (s : string) : string :=
  slug_dashes false (trim (slug_filter s)).

Definition sample_env (users : list User) (failing : list nat) : Env := {|
  PATHS := sample_PATHS;
  slugify := sample_slugify;
  url_key := λ u, strip_prefix "dat://" u;
  users_list := users;
  created_root_url := "dat://root";
  faults := failing
|}.

(** What the package's default [remove] rule keeps of the ASCII range:
    word characters, white space, the double quote and the characters
    of [$*_+~.()'!-:@]; every other character is deleted. *)
Definition slug_allowed (c : ascii) : bool :=
  let n := N_of_ascii c in
  ((48 <=? n) && (n <=? 57) || (65 <=? n) && (n <=? 90) || (97 <=? n) && (n <=? 122)
   || (n =? 95))%N
  || js_is_space c
  || bool_decide (n ∈ [36; 42; 43; 126; 46; 40; 41; 39; 34; 33; 45; 58; 64]%N).

Fixpoint slug_remove (s : string) : string :=
  match s with
  | String c r => if slug_allowed c then String c (slug_remove r) else slug_remove r
  | EmptyString => EmptyString
  end.

(** Modelled from the spec: the slug function of the slugify package,
    which this module only imports, as line 194 calls it: with no options.
    The spec says of it no more than that the slug is URL- and path-safe;
    the rule here is the package's default one, which unlike
    [sample_slugify] keeps some punctuation: the characters outside
    [slug_allowed] are deleted, the result is trimmed, and its runs of
    white space and dashes become single dashes. *)
Definition slugify_plain (s : string) : string :=
  slug_dashes false (trim (slug_remove s)).

(** The titles on which [slugify_plain] is the whole of the package's
    rule: ASCII only, and none of [$ % & < > |], which the package first
    spells out as words through its character map, nor the dash, which
    some versions of the package turn into a space before they trim. *)
Definition slug_plain_char (c : ascii) : bool :=
  let n := N_of_ascii c in
  (n <? 128)%N && negb (bool_decide (n ∈ [36; 37; 38; 60; 62; 124; 45]%N)).

Fixpoint slugify_covers (s : string) : bool :=
  match s with
  | String c r => slug_plain_char c && slugify_covers r
  | EmptyString => true
  end.

(** The sample environment, with the package's default slug rule. *)
Definition plain_env (users : list User) (failing : list nat) : Env := {|
  PATHS := sample_PATHS;
  slugify := slugify_plain;
  url_key := λ u, strip_prefix "dat://" u;
  users_list := users;
  created_root_url := "dat://root";
  faults := failing
|}.

(** A world where [setup] has loaded the root archive. *)
Definition loaded (m : gmap string node) : world := {|
  fs := m;
  db_profile := Some (mkProfile (Some "dat://root"));
  browsingProfile := Some (mkProfile (Some "dat://root"));
  rootArchive := Some "dat://root";
  trace := [];
  log := []
|}.

(** A world at process start, before [setup]. *)
Definition at_start (m : gmap string node) (row : option profile) : world := {|
  fs := m;
  db_profile := row;
  browsingProfile := None;
  rootArchive := None;
  trace := [];
  log := []
|}.

(** * The vocabulary of the statements *)

(** Calls of the archive interface. *)
Definition is_pda_op (o : op) : bool :=
  match o with
  | PdaStat _ | PdaMkdir _ | PdaMount _ _ | PdaUnmount _ | PdaReaddir _ => true
  | _ => false
  end.

(** What a call leaves at the paths, when no external call rejects. *)
Definition mkdir_fs (p : string) (m : gmap string node) : gmap string node :=
  match m !! p with
  | None => <[p := Dir]> m
  | Some _ => m
  end.

Definition mount_fs (p : string) (key : option string) (m : gmap string node)
  : gmap string node :=
  match key, m !! p with
  | Some k, None => <[p := Mount k]> m
  | Some k, Some (Mount k0) => if String.eqb k0 k then m else <[p := Mount k]> m
  | _, _ => m
  end.

Definition unmount_fs (p : string) (m : gmap string node) : gmap string node :=
  match m !! p with
  | Some (Mount _) => delete p m
  | _ => m
  end.

(** The calls of [ensureMount] that a trace shows: [ensureMount(p, u)]
    is the one place where a probe is followed at once by the resolution
    of a url, the probe being of [p] and the url being [u]. *)
Fixpoint ensureMount_calls (t : list op) : list (string * string) :=
  match t with
  | [] => []
  | o :: t' =>
      match o, t' with
      | PdaStat p, FromURLToKey u :: _ => (p, u) :: ensureMount_calls t'
      | _, _ => ensureMount_calls t'
      end
  end.

(** The mounts [setup] asks for, user by user: the alias for a default
    user, the user's own path for a user who is not temporary. *)
Definition wanted_mounts (P : PATHS_t) (userList : list User) : list (string * string) :=
  flat_map (λ user,
    (if isDefault user then [(DEFAULT_USER P, url user)] else []) ++
    (if negb (isTemporary user) then [(USER P (label user), url user)] else []))
    userList.

Definition starts_with_probe (t : list op) : Prop :=
  t = [] ∨ ∃ p rest, t = PdaStat p :: rest.

Definition head_not_resolve (t : list op) : Prop :=
  match t with
  | FromURLToKey _ :: _ => False
  | _ => True
  end.

(** ** Titles and slugs *)

(** The imported slug function is the package's default one, wherever
    [slugify_plain] is the whole of that rule. *)
Definition default_slugify (E : Env) : Prop :=
  ∀ s, slugify_covers s = true → slugify E s = slugify_plain s.

Definition utf8_2 (a b : N) : string :=
  String (ascii_of_N a) (String (ascii_of_N b) "").

Definition utf8_3 (a b c : N) : string :=
  String (ascii_of_N a) (String (ascii_of_N b) (String (ascii_of_N c) "")).

(** The white space characters, in UTF-8: tab, LF, VT, FF, CR, space,
    U+00A0, U+1680, U+2000 to U+200A, U+2028, U+2029, U+202F, U+205F,
    U+3000 and U+FEFF. *)
Definition white_space : list string :=
  [ String "009" ""; String "010" ""; String "011" ""; String "012" "";
    String "013" ""; " ";
    utf8_2 194 160; utf8_3 225 154 128;
    utf8_3 226 128 128; utf8_3 226 128 129; utf8_3 226 128 130;
    utf8_3 226 128 131; utf8_3 226 128 132; utf8_3 226 128 133;
    utf8_3 226 128 134; utf8_3 226 128 135; utf8_3 226 128 136;
    utf8_3 226 128 137; utf8_3 226 128 138;
    utf8_3 226 128 168; utf8_3 226 128 169; utf8_3 226 128 175;
    utf8_3 226 129 159; utf8_3 227 128 128; utf8_3 239 187 191 ].

(** A title that is empty, or white space only. *)
Inductive blank : string → Prop :=
  | blank_empty : blank ""
  | blank_space (c s : string) : c ∈ white_space → blank s → blank (c +:+ s).

(** ** What the paths of [PATHS] must be to one another *)

Definition fixed_dirs (P : PATHS_t) : list string :=
  [DATA P; DATA_NS P "unwalled.garden";
   joinPath (DATA_NS P "unwalled.garden") "bookmarks";
   LIBRARY P; SETTINGS P; USERS P].

Record PATHS_wf (P : PATHS_t) : Prop := {
  (* a user's path is the entry of that name under the users root *)
  USER_under_USERS : ∀ n, USER P n = USERS P +:+ "/" +:+ n;
  (* the alias is not a user's path *)
  alias_not_USER : ∀ n, DEFAULT_USER P ≠ USER P n;
  (* neither is one of the common directories *)
  USER_not_fixed : ∀ n, USER P n ∉ fixed_dirs P;
  alias_not_fixed : DEFAULT_USER P ∉ fixed_dirs P
}.

(** ** The paths after each stage, when no external call rejects *)

Definition free_or_mount (o : option node) : Prop :=
  o = None ∨ ∃ k, o = Some (Mount k).

(** One round of the loop over the users. *)
Definition user_fs (P : PATHS_t) (key : string → option string) (m : gmap string node)
    (user : User) : gmap string node :=
  let m1 := if isDefault user then mount_fs (DEFAULT_USER P) (key (url user)) m else m in
  if negb (isTemporary user)
  then mount_fs (USER P (label user)) (key (url user)) m1
  else m1.

(** One round of the loop over the file names. *)
Definition sweep_fs (P : PATHS_t) (userList : list User) (m : gmap string node)
    (filename : string) : gmap string node :=
  match List.find (λ u, String.eqb (label u) filename) userList with
  | None => unmount_fs (USER P filename) m
  | Some _ => m
  end.

(** From [w] to [w'] only calls of the archive interface were made. *)
Definition pda_only (w w' : world) : Prop :=
  rootArchive w' = rootArchive w ∧
  ∃ rest, trace w' = trace w ++ rest ∧ forallb is_pda_op rest = true.

(** Whether [ensureMount] finds nothing to do at a path: the key did not
    resolve, or the node is no mount point to take, or it is the mount
    wanted. *)
Definition mount_settled (key : option string) (o : option node) : bool :=
  match key, o with
  | Some _, None => false
  | Some k, Some (Mount k0) => String.eqb k0 k
  | _, _ => true
  end.

(** The module's variables and the profile row are what they were. *)
Definition globals_kept (w w' : world) : Prop :=
  db_profile w' = db_profile w ∧
  browsingProfile w' = browsingProfile w ∧
  rootArchive w' = rootArchive w.

(** The common directories, one [ensureDir] after the other. *)
Definition dirs_fs (P : PATHS_t) (m : gmap string node) : gmap string node :=
  foldl (λ m p, mkdir_fs p m) m (fixed_dirs P).

(** Calls that go to the root archive or to the resolver of urls. *)
Definition is_archive_op (o : op) : bool :=
  is_pda_op o || match o with FromURLToKey _ => true | _ => false end.

(** From [w] to [w'] the module only worked on the archive: the variables
    and the profile row are kept, and the calls made went to the archive
    or to the resolver. *)
Definition archive_only (w w' : world) : Prop :=
  globals_kept w w' ∧
  ∃ rest, trace w' = trace w ++ rest ∧ forallb is_archive_op rest = true.

(** The two calls of the first run: a root archive is created, its url
    is written to the profile row. *)
Definition is_first_run_op (o : op) : bool :=
  match o with
  | CreateNewRootArchive | DbRun _ => true
  | _ => false
  end.

(** The paths after a whole [setup], when no external call rejects: the
    common directories, the user mounts, the sweep of what is then listed
    under the users root. *)
Definition setup_fs (P : PATHS_t) (key : string → option string)
    (users : list User) (m : gmap string node) : gmap string node :=
  let m2 := foldl (user_fs P key) (dirs_fs P m) users in
  foldl (sweep_fs P users) m2 (readdir_names m2 (USERS P)).

(** [mount_fs] and [user_fs], seen from one path. *)
Definition mount_val (key : option string) (v : option node) : option node :=
  match key, v with
  | Some k, None => Some (Mount k)
  | Some k, Some (Mount _) => Some (Mount k)
  | _, _ => v
  end.

Definition user_val (P : PATHS_t) (key : string → option string) (q : string)
    (v : option node) (user : User) : option node :=
  let v1 := if isDefault user && bool_decide (q = DEFAULT_USER P)
            then mount_val (key (url user)) v else v in
  if negb (isTemporary user) && bool_decide (q = USER P (label user))
  then mount_val (key (url user)) v1 else v1.

(** What the user mounts do to the node of a path, seen as a function of
    that node: files and directories are left alone, the rest stays
    within "nothing or a mount", and there either everything is left as
    it is or one and the same mount is set whatever is found. *)
Definition settles (f : option node → option node) : Prop :=
  (∀ v, ¬ free_or_mount v → f v = v) ∧
  (∀ v, free_or_mount v → free_or_mount (f v)) ∧
  ((∀ v v', free_or_mount v → free_or_mount v' → f v = f v') ∨
   (∀ v, free_or_mount v → f v = v)).

(** * Facts *)

(** ** The loops *)

Ltac unfold_m := unfold bind, ret, throw, try_catch, gets, modify in *.

Lemma bind_run {A B} (m : M A) (k : A → M B) (w : world) :
  bind m k w = match m w with
               | (Ok a, w') => k a w'
               | (Throw e, w') => (Throw e, w')
               end.
Proof. reflexivity. Qed.

Lemma try_catch_run {A} (m : M A) (h : error → M A) (w : world) :
  try_catch m h w = match m w with
                    | (Ok a, w') => (Ok a, w')
                    | (Throw e, w') => h e w'
                    end.
Proof. reflexivity. Qed.

Lemma for_rounds_add {R} (a b : nat) (i : N) (body : N → M (option R)) (w : world) :
  for_rounds (a + b) i body w =
  (let! r := for_rounds a i body in
   match r with
   | Some x => ret (Some x)
   | None => for_rounds b (i + N.of_nat a) body
   end) w.
Proof.
  revert i w. induction a as [|a IH]; intros i w.
  - cbn [for_rounds Nat.add]. unfold_m. by rewrite N.add_0_r.
  - cbn [for_rounds Nat.add]. unfold bind, ret.
    destruct (body i w) as [[[x|]|e] w1]; [done | | done].
    rewrite IH. unfold bind, ret.
    replace (i + 1 + N.of_nat a)%N with (i + N.of_nat (S a))%N by lia.
    done.
Qed.

Lemma for_upto_rounds {R} (n : positive) (i : N) (body : N → M (option R)) (w : world) :
  for_upto n i body w = for_rounds (Pos.to_nat n) i body w.
Proof.
  revert i w. induction n as [n IH|n IH|]; intros i w.
  - rewrite Pos2Nat.inj_xI. cbn [for_upto for_rounds Nat.mul].
    unfold bind, ret. destruct (body i w) as [[[x|]|e] w1]; [done | | done].
    replace (Pos.to_nat n + (Pos.to_nat n + 0))%nat
      with (Pos.to_nat n + Pos.to_nat n)%nat by lia.
    rewrite for_rounds_add. unfold bind, ret. rewrite IH.
    destruct (for_rounds _ _ _ w1) as [[[x|]|e] w2]; [done | | done].
    rewrite IH. by rewrite positive_nat_N.
  - rewrite Pos2Nat.inj_xO. cbn [for_upto Nat.mul].
    replace (Pos.to_nat n + (Pos.to_nat n + 0))%nat
      with (Pos.to_nat n + Pos.to_nat n)%nat by lia.
    rewrite for_rounds_add. unfold bind, ret. rewrite IH.
    destruct (for_rounds _ _ _ w) as [[[x|]|e] w2]; [done | | done].
    rewrite IH. by rewrite positive_nat_N.
  - change (Pos.to_nat 1) with 1%nat. cbn [for_upto for_rounds].
    unfold bind, ret. by destruct (body i w) as [[[x|]|e] w1].
Qed.

(** The binary loop is the [for] loop of the source: [hi - lo] rounds,
    one after the other. *)
Lemma for_range_rounds {R} (lo hi : N) (body : N → M (option R)) (w : world) :
  for_range lo hi body w = for_rounds (N.to_nat (hi - lo)) lo body w.
Proof.
  unfold for_range. destruct (hi - lo)%N as [|n]; [done |].
  rewrite for_upto_rounds. by rewrite positive_N_nat.
Qed.

(** ** The internal methods, one call at a time *)

(** Case analysis on everything a call can meet: the fault schedule, the
    node at the path, the resolver. *)
Ltac innermost x :=
  lazymatch x with
  | context [match ?y with _ => _ end] => innermost y
  | _ => destruct x eqn:?
  end.

Ltac crunch :=
  repeat (cbn -[elem_of] in *;
          first
            [ progress subst
            | match goal with
              | H : (_, _) = (_, _) |- _ => inversion H; clear H
              | H : Ok _ = Ok _ |- _ => inversion H; clear H
              | H : Some _ = Some _ |- _ => inversion H; clear H
              | H : Mount _ = Mount _ |- _ => inversion H; clear H
              | H : faults ?E = [] |- context [faults ?E] => rewrite H
              | |- context [bool_decide (?n ∈ [])] =>
                  rewrite (bool_decide_eq_false_2 (n ∈ [])) by apply not_elem_of_nil
              | H : ?n ∉ ?l |- context [bool_decide (?n ∈ ?l)] =>
                  rewrite (bool_decide_eq_false_2 _ H)
              | |- context [delete ?p ?m !! ?p] => rewrite (lookup_delete_eq m p)
              | H : String.eqb ?x ?y = _ |- context [String.eqb ?x ?y] => rewrite H
              | H : ?x = _ |- context [match ?x with _ => _ end] => rewrite H
              | |- context [match ?x with _ => _ end] => innermost x
              end ]).

Ltac open_calls :=
  unfold ensureDir, ensureMount, ensureUnmount, stat, pda_stat, pda_mkdir,
    pda_mount, pda_unmount, pda_readdir, pda, fromURLToKey, external,
    logger_info, logger_error, console_error;
  unfold_m.

Section Calls.

Variable E : Env.
Implicit Types (w : world) (p q u k : string) (o : op).

Lemma stat_any p w :
  ∃ r w', stat E p w = (Ok r, w') ∧
    (w' = w ∨ w' = add_trace (PdaStat p) w).
Proof. open_calls. crunch; eauto. Qed.

Lemma stat_quiet p w a :
  faults E = [] → rootArchive w = Some a →
  stat E p w = (Ok (stat_of <$> fs w !! p), add_trace (PdaStat p) w).
Proof. intros Hq Ha. open_calls. by crunch. Qed.

Lemma ensureDir_any p w :
  ∃ w', ensureDir E p w = (Ok tt, w') ∧
    rootArchive w' = rootArchive w ∧
    (∀ q, q ≠ p → fs w' !! q = fs w !! q).
Proof.
  open_calls. crunch; eexists; (split; [reflexivity|]); cbn.
  all: (split; [done|]).
  all: intros q Hq; by rewrite ?lookup_insert_ne by done.
Qed.

Lemma ensureDir_quiet p w a :
  faults E = [] → rootArchive w = Some a →
  ∃ w', ensureDir E p w = (Ok tt, w') ∧
    rootArchive w' = Some a ∧ fs w' = mkdir_fs p (fs w).
Proof.
  intros Hq Ha. open_calls. unfold mkdir_fs.
  crunch; eexists; (split; [reflexivity|]); cbn; by crunch.
Qed.

Lemma ensureMount_any p u w :
  ∃ w', ensureMount E p u w = (Ok tt, w') ∧
    rootArchive w' = rootArchive w ∧
    (∀ q, q ≠ p → fs w' !! q = fs w !! q) ∧
    (is_Some (rootArchive w) →
     ∃ rest, trace w' = trace w ++ PdaStat p :: FromURLToKey u :: rest ∧
             forallb is_pda_op rest = true).
Proof.
  open_calls. crunch; eexists; (split; [reflexivity|]); cbn.
  all: (split; [done|]).
  all: split.
  all: try (intros q Hq; by rewrite ?lookup_insert_ne, ?lookup_delete_ne by done).
  all: intros [a Ha]; try discriminate.
  all: rewrite <- ?(assoc_L (++)); cbn; eexists; (split; [reflexivity|done]).
Qed.

Lemma ensureMount_quiet p u w a :
  faults E = [] → rootArchive w = Some a →
  ∃ w', ensureMount E p u w = (Ok tt, w') ∧
    rootArchive w' = Some a ∧ fs w' = mount_fs p (url_key E u) (fs w).
Proof.
  intros Hq Ha. open_calls. unfold mount_fs.
  crunch; eexists; (split; [reflexivity|]); cbn; crunch; try done.
  all: split; [done|]; by rewrite insert_delete_eq.
Qed.

Lemma ensureUnmount_any p w :
  ∃ w', ensureUnmount E p w = (Ok tt, w') ∧
    rootArchive w' = rootArchive w ∧
    (∀ q, q ≠ p → fs w' !! q = fs w !! q) ∧
    (fs w' = fs w ∨ fs w' = delete p (fs w)) ∧
    (∃ rest, trace w' = trace w ++ rest ∧
       (rest = [] ∨ rest = [PdaStat p] ∨ rest = [PdaStat p; PdaUnmount p])).
Proof.
  open_calls. crunch; eexists; (split; [reflexivity|]); cbn.
  all: (split; [done|]).
  all: split; [intros q Hq; by rewrite ?lookup_delete_ne by done|].
  all: split; [by eauto|].
  all: rewrite <- ?(assoc_L (++)); cbn.
  all: first [ by exists []; rewrite app_nil_r; eauto | by eauto 6 ].
Qed.

End Calls.

(** * Single calls *)

(** C4 (reassignment).  Let the node at [p] be a mount bound to key [A],
    let the wanted url resolve to key [B], and let no external call
    reject.  Then one call [ensureMount(p, url)] completes and leaves [p] a
    mount bound to [B], every other path as it was.  When [A ≠ B] the
    calls made are, in this order, the probe, the resolution, the unmount
    of [p] and the mount of [p] to [B], and [p] is no longer bound to [A].
    When [A = B] the probe and the resolution are all that happens: no
    mount, no unmount, no diagnostic, no change. *)
Theorem ensureMount_reassign (E : Env) (w : world) (p u a A B : string) :
  faults E = [] →
  rootArchive w = Some a →
  fs w !! p = Some (Mount A) →
  url_key E u = Some B →
  ∃ w', ensureMount E p u w = (Ok tt, w') ∧
    fs w' !! p = Some (Mount B) ∧
    (∀ q, q ≠ p → fs w' !! q = fs w !! q) ∧
    (A ≠ B →
       fs w' !! p ≠ Some (Mount A) ∧
       trace w' = trace w ++
         [PdaStat p; FromURLToKey u; PdaUnmount p; PdaMount p B]) ∧
    (A = B → w' = add_trace (FromURLToKey u) (add_trace (PdaStat p) w)).
Proof.
  intros Hq Ha Hp Hu. open_calls.
  destruct (String.eqb A B) eqn:HAB.
  - pose proof (proj1 (String.eqb_eq A B) HAB) as HAB'.
    crunch.
    eexists; split; [reflexivity|]. cbn. repeat split; done.
  - pose proof (proj1 (String.eqb_neq A B) HAB) as HAB'.
    crunch.
    eexists; split; [reflexivity|]. cbn.
    rewrite lookup_insert_eq. split; [done|]. split.
    { intros q Hq'. by rewrite lookup_insert_ne, lookup_delete_ne. }
    split; [|done]. intros _. split; [congruence|].
    by rewrite <- !(assoc_L (++)).
Qed.

Lemma ensureMount_reassign_witness :
  ∃ w', ensureMount (sample_env [] []) "/users/alice" "dat://bbbb"
          (loaded {["/users/alice" := Mount "aaaa"]}) = (Ok tt, w') ∧
    fs w' !! "/users/alice" = Some (Mount "bbbb").
Proof.
  destruct (ensureMount_reassign (sample_env [] [])
              (loaded {["/users/alice" := Mount "aaaa"]})
              "/users/alice" "dat://bbbb" "dat://root" "aaaa" "bbbb")
    as (w' & Hrun & Hp & _); [reflexivity..|].
  exists w'. by split.
Defined.

(** C5 (conflict safety).  Let a node sit at [p], and let the probe of [p]
    go through.  Then [ensureDir(p)] only probes: no mkdir is issued and
    the archive's namespace, the node at [p] and its content included, is
    what it was; if the node is not a directory, one error about [p] is
    logged, and nothing else.  And if the node is not a mount,
    [ensureMount(p, url)] only probes and resolves the url: no mount and
    no unmount is issued, the namespace is what it was, and one error
    about [p] is logged. *)
Theorem wrong_kind_left_untouched (E : Env) (w : world) (p u a : string) (n : node) :
  rootArchive w = Some a →
  length (trace w) ∉ faults E →
  fs w !! p = Some n →
  (∃ w', ensureDir E p w = (Ok tt, w') ∧
     fs w' = fs w ∧
     trace w' = trace w ++ [PdaStat p] ∧
     (st_isDirectory (stat_of n) = false →
      ∃ msg, log w' = log w ++ [mkDiag LError msg p])) ∧
  (st_mount (stat_of n) = None →
     ∃ w', ensureMount E p u w = (Ok tt, w') ∧
       fs w' = fs w ∧
       trace w' = trace w ++ [PdaStat p; FromURLToKey u] ∧
       ∃ msg, log w' = log w ++ [mkDiag LError msg p]).
Proof.
  intros Ha Htick Hp. split; [|intros Hkind]; open_calls.
  - destruct n; crunch; (eexists; split; [reflexivity|]); cbn;
      (repeat split; try done); eauto.
  - destruct n; try discriminate.
    all: crunch; eexists; (split; [reflexivity|]); cbn.
    all: rewrite <- ?(assoc_L (++)); cbn; eauto.
Qed.

Lemma wrong_kind_left_untouched_witness :
  let w := loaded {["/users/carol" := File "notes"]} in
  (∃ w', ensureDir (sample_env [] []) "/users/carol" w = (Ok tt, w') ∧
         fs w' = fs w) ∧
  (∃ w', ensureMount (sample_env [] []) "/users/carol" "dat://cccc" w = (Ok tt, w') ∧
         fs w' = fs w).
Proof.
  intros w.
  destruct (wrong_kind_left_untouched (sample_env [] []) w
              "/users/carol" "dat://cccc" "dat://root" (File "notes"))
    as [Hd Hm]; [reflexivity | apply not_elem_of_nil | reflexivity |].
  destruct Hd as (w1 & H1 & H1' & _).
  destruct (Hm eq_refl) as (w2 & H2 & H2' & _).
  split; eauto.
Defined.

(** C10 (removal leaves the alias).  Whatever the user's flags and
    whatever fails, [removeUser(user)] completes, probes and unmounts
    nothing but the user's own path, and leaves every other path as it
    was; the default alias, being another path, keeps its node, so the
    alias of a removed default user stays bound to that user's key. *)
Theorem removeUser_leaves_alias (E : Env) (w : world) (user : User) :
  DEFAULT_USER (PATHS E) ≠ USER (PATHS E) (label user) →
  ∃ w', removeUser E user w = (Ok tt, w') ∧
    fs w' !! DEFAULT_USER (PATHS E) = fs w !! DEFAULT_USER (PATHS E) ∧
    (∀ q, q ≠ USER (PATHS E) (label user) → fs w' !! q = fs w !! q) ∧
    (fs w' = fs w ∨ fs w' = delete (USER (PATHS E) (label user)) (fs w)) ∧
    ∃ rest, trace w' = trace w ++ rest ∧
      (rest = [] ∨
       rest = [PdaStat (USER (PATHS E) (label user))] ∨
       rest = [PdaStat (USER (PATHS E) (label user));
               PdaUnmount (USER (PATHS E) (label user))]).
Proof.
  intros Hne. unfold removeUser.
  destruct (ensureUnmount_any E (USER (PATHS E) (label user)) w)
    as (w' & Hrun & _ & Hframe & Hfs & Htrace).
  exists w'. split; [done|]. split; [by apply Hframe|]. done.
Qed.

Lemma removeUser_leaves_alias_witness :
  let alice := mkUser "alice" "dat://aaaa" true false in
  let w := loaded {["/users/alice" := Mount "aaaa"; "/public" := Mount "aaaa"]} in
  ∃ w', removeUser (sample_env [] []) alice w = (Ok tt, w') ∧
        fs w' !! "/public" = Some (Mount "aaaa").
Proof.
  intros alice w.
  destruct (removeUser_leaves_alias (sample_env [] []) w alice)
    as (w' & Hrun & Halias & _); [discriminate|].
  exists w'. split; [done|]. exact Halias.
Defined.

(** * Name allocation *)

Section Allocation.

Variable E : Env.
Variables dir base : string.

(** The body of the loop of [getAvailableName]. *)
Let probing : N → M (option string) :=
  λ i, let name := candidate base i in
       let! st := stat E (joinPath dir name) in
       match st with
       | None => ret (Some name)
       | Some _ => ret None
       end.

Lemma probing_quiet i w a :
  faults E = [] → rootArchive w = Some a →
  probing i w =
    (Ok (match fs w !! joinPath dir (candidate base i) with
         | None => Some (candidate base i)
         | Some _ => None
         end),
     add_trace (PdaStat (joinPath dir (candidate base i))) w).
Proof.
  intros Hq Ha. unfold probing. cbv zeta. unfold bind.
  rewrite (stat_quiet E _ w a Hq Ha).
  by destruct (fs w !! _).
Qed.

(** As long as the names are taken the loop goes on, and only probes. *)
Lemma rounds_occupied rounds i w a :
  faults E = [] → rootArchive w = Some a →
  (∀ j, (i ≤ j < i + N.of_nat rounds)%N →
        is_Some (fs w !! joinPath dir (candidate base j))) →
  ∃ w', for_rounds rounds i probing w = (Ok None, w') ∧
    fs w' = fs w ∧ log w' = log w ∧ rootArchive w' = Some a ∧
    length (trace w') = (length (trace w) + rounds)%nat.
Proof.
  intros Hq. revert i w. induction rounds as [|rounds IH]; intros i w Ha Hocc.
  - exists w. cbn. by rewrite Nat.add_0_r.
  - cbn [for_rounds]. unfold bind. rewrite (probing_quiet i w a Hq Ha).
    destruct (Hocc i) as [n Hn]; [lia|]. rewrite Hn.
    destruct (IH (i + 1)%N (add_trace (PdaStat (joinPath dir (candidate base i))) w))
      as (w' & Hrun & Hfs & Hlog & Hroot & Hlen); [done | |].
    { intros j Hj. cbn. apply Hocc. lia. }
    exists w'. split; [done|]. cbn in *.
    rewrite Hlen, length_app. cbn. repeat split; try done. lia.
Qed.

(** The first free name ends the loop. *)
Lemma rounds_first_free rounds i k w a :
  faults E = [] → rootArchive w = Some a →
  (i ≤ k < i + N.of_nat rounds)%N →
  (∀ j, (i ≤ j < k)%N → is_Some (fs w !! joinPath dir (candidate base j))) →
  fs w !! joinPath dir (candidate base k) = None →
  ∃ w', for_rounds rounds i probing w = (Ok (Some (candidate base k)), w') ∧
    fs w' = fs w ∧ log w' = log w ∧ rootArchive w' = Some a.
Proof.
  intros Hq. revert i w. induction rounds as [|rounds IH]; intros i w Ha Hk Hocc Hfree.
  - lia.
  - cbn [for_rounds]. unfold bind. rewrite (probing_quiet i w a Hq Ha).
    destruct (decide (i = k)) as [->|Hne].
    + rewrite Hfree. eexists. split; [reflexivity|]. done.
    + destruct (Hocc i) as [n Hn]; [lia|]. rewrite Hn.
      destruct (IH (i + 1)%N (add_trace (PdaStat (joinPath dir (candidate base i))) w))
        as (w' & Hrun & Hfs & Hlog & Hroot); [done | lia | | done |].
      { intros j Hj. cbn. apply Hocc. lia. }
      exists w'. by split.
Qed.

(** Whatever happens, a round makes one external call at most. *)
Lemma rounds_bounded rounds i w :
  (length (trace (for_rounds rounds i probing w).2)
   ≤ length (trace w) + rounds)%nat.
Proof.
  revert i w. induction rounds as [|rounds IH]; intros i w.
  - cbn. lia.
  - cbn [for_rounds]. unfold bind, probing at 1. cbv zeta. unfold bind.
    destruct (stat_any E (joinPath dir (candidate base i)) w)
      as (r & w1 & -> & Hw1).
    assert (length (trace w1) ≤ length (trace w) + 1)%nat as Hlen.
    { destruct Hw1 as [->| ->]; cbn; rewrite ?length_app; cbn; lia. }
    destruct r as [st|]; cbn.
    + specialize (IH (i + 1)%N w1). lia.
    + lia.
Qed.

End Allocation.

Section AllocationCalls.

Variable E : Env.

Lemma getAvailableNameUpTo_first_free ceiling dir title k w a :
  faults E = [] → rootArchive w = Some a →
  (1 ≤ k < ceiling)%N →
  (∀ j, (1 ≤ j < k)%N →
        is_Some (fs w !! joinPath dir (candidate (basename_of E title) j))) →
  fs w !! joinPath dir (candidate (basename_of E title) k) = None →
  ∃ w', getAvailableNameUpTo E ceiling dir title w
          = (Ok (candidate (basename_of E title) k), w') ∧
    fs w' = fs w ∧ log w' = log w ∧ rootArchive w' = Some a.
Proof.
  intros Hq Ha Hk Hocc Hfree. unfold getAvailableNameUpTo. cbv zeta.
  unfold bind at 1. rewrite for_range_rounds.
  destruct (rounds_first_free E dir (basename_of E title)
              (N.to_nat (ceiling - 1)) 1 k w a)
    as (w' & Hrun & Hrest); [done | done | lia | done | done |].
  cbv zeta in Hrun. rewrite Hrun. by exists w'.
Qed.

Lemma getAvailableNameUpTo_exhausted ceiling dir title w a :
  faults E = [] → rootArchive w = Some a →
  (∀ j, (1 ≤ j < ceiling)%N →
        is_Some (fs w !! joinPath dir (candidate (basename_of E title) j))) →
  ∃ w', getAvailableNameUpTo E ceiling dir title w
          = (Throw (Error ("Unable to find an available name for " +:+ title)), w') ∧
    fs w' = fs w ∧ log w' = log w ∧
    length (trace w') = (length (trace w) + N.to_nat (ceiling - 1))%nat.
Proof.
  intros Hq Ha Hocc. unfold getAvailableNameUpTo. cbv zeta.
  unfold bind at 1. rewrite for_range_rounds.
  destruct (rounds_occupied E dir (basename_of E title)
              (N.to_nat (ceiling - 1)) 1 w a)
    as (w' & Hrun & Hfs & Hlog & _ & Hlen); [done | done | |].
  { intros j Hj. apply Hocc. lia. }
  cbv zeta in Hrun. rewrite Hrun. by exists w'.
Qed.

Lemma getAvailableNameUpTo_bounded ceiling dir title w :
  (length (trace (getAvailableNameUpTo E ceiling dir title w).2)
   ≤ length (trace w) + N.to_nat (ceiling - 1))%nat.
Proof.
  unfold getAvailableNameUpTo. cbv zeta. unfold bind at 1.
  rewrite for_range_rounds.
  pose proof (rounds_bounded E dir (basename_of E title)
                (N.to_nat (ceiling - 1)) 1 w) as Hb.
  cbv zeta in Hb.
  destruct (for_rounds _ _ _ w) as [[[name|]|e] w1]; exact Hb.
Qed.

End AllocationCalls.

Section AllocationNames.

Variable E : Env.
Variables dir base : string.

Let probing : N → M (option string) :=
  λ i, let name := candidate base i in
       let! st := stat E (joinPath dir name) in
       match st with
       | None => ret (Some name)
       | Some _ => ret None
       end.

(** Whatever the probes do, a name that the loop returns is one of the
    names it tried. *)
Lemma rounds_names rounds i w name w' :
  for_rounds rounds i probing w = (Ok (Some name), w') →
  ∃ k, (i ≤ k)%N ∧ name = candidate base k.
Proof.
  revert i w. induction rounds as [|rounds IH]; intros i w; [done|].
  cbn [for_rounds]. rewrite bind_run. unfold probing at 1. cbv zeta.
  rewrite bind_run.
  destruct (stat_any E (joinPath dir (candidate base i)) w) as (r & w1 & -> & _).
  destruct r as [st|].
  - intros (k & Hk & ->)%IH. exists k. split; [lia | done].
  - intros [= <- _]. exists i. split; [lia | done].
Qed.

End AllocationNames.

Lemma getAvailableNameUpTo_names (E : Env) ceiling dir title w name w' :
  getAvailableNameUpTo E ceiling dir title w = (Ok name, w') →
  ∃ k, (1 ≤ k)%N ∧ name = candidate (basename_of E title) k.
Proof.
  unfold getAvailableNameUpTo. cbv zeta. rewrite bind_run, for_range_rounds.
  destruct (for_rounds _ _ _ w) as [[[n|]|e] w1] eqn:Hrun; [|done..].
  intros [= <- _]. by apply rounds_names in Hrun.
Qed.

Lemma append_empty_r (s : string) : s +:+ "" = s.
Proof. induction s as [|c s IH]; [done|]. cbv [String.append]. fold String.append. by rewrite IH. Qed.

(** The names tried differ from one another. *)
Lemma candidate_inj (base : string) (i j : N) :
  (1 ≤ i)%N → (1 ≤ j)%N → candidate base i = candidate base j → i = j.
Proof.
  intros Hi Hj. unfold candidate.
  destruct (N.eqb_spec i 1) as [->|Hi1], (N.eqb_spec j 1) as [->|Hj1]; [done|..].
  - rewrite <- (append_empty_r base) at 1. intros H%(inj (String.app base)).
    change ("" = String "-" (pretty j)) in H. discriminate H.
  - rewrite <- (append_empty_r base) at 2. intros H%(inj (String.app base)).
    change (String "-" (pretty i) = "") in H. discriminate H.
  - intros H%(inj (String.app base)).
    change (String "-" (pretty i) = String "-" (pretty j)) in H.
    injection H as H. by apply (inj pretty).
Qed.

Lemma append_assoc (a b c : string) : (a +:+ b) +:+ c = a +:+ (b +:+ c).
Proof.
  induction a as [|x a IH]; [done|].
  change (String x ((a +:+ b) +:+ c) = String x (a +:+ (b +:+ c))). by rewrite IH.
Qed.

Lemma append_empty_inv (a b : string) : a +:+ b = "" → b = "".
Proof. by destruct a. Qed.

(** ** Joined paths *)

Lemma split_slash_cons (s : string) : ∃ seg rest, split_slash s = seg :: rest.
Proof.
  induction s as [|c s (seg & rest & IH)]; [by eexists _, _|].
  cbn [split_slash]. destruct (decide (c = "/"%char)); [by eexists _, _|].
  rewrite IH. by eexists _, _.
Qed.

Lemma split_slash_join (a b : string) :
  split_slash (a +:+ "/" +:+ b) = split_slash a ++ split_slash b.
Proof.
  induction a as [|c a IH]; [done|].
  change (String c a +:+ "/" +:+ b) with (String c (a +:+ "/" +:+ b)).
  cbn [split_slash]. destruct (decide (c = "/"%char)); [by rewrite IH|].
  rewrite IH. by destruct (split_slash_cons a) as (seg & rest & ->).
Qed.

Lemma split_slash_plain (b : string) : has_slash b = false → split_slash b = [b].
Proof.
  induction b as [|c b IH]; [done|]. cbn [has_slash split_slash].
  intros [Hc Hb]%orb_false_elim. apply bool_decide_eq_false in Hc.
  rewrite decide_False by done. by rewrite (IH Hb).
Qed.

Lemma ends_with_slash_plain (b : string) : has_slash b = false → ends_with_slash b = false.
Proof.
  induction b as [|c b IH]; [done|]. cbn [has_slash ends_with_slash].
  intros [Hc Hb]%orb_false_elim. destruct b; [done | by apply IH].
Qed.

Lemma ends_with_slash_append (a b : string) :
  b ≠ "" → ends_with_slash (a +:+ b) = ends_with_slash b.
Proof.
  intros Hb. induction a as [|c a IH]; [done|].
  change (String c a +:+ b) with (String c (a +:+ b)). cbn [ends_with_slash].
  destruct (a +:+ b) eqn:Hab; [|done].
  by apply append_empty_inv in Hab.
Qed.

(** Under one directory, the path of a plain name is the directory's
    own prefix and then the name. *)
Lemma joinPath_plain (dir : string) :
  ∃ prefix, ∀ b', has_slash b' = false → b' ≠ "" → b' ≠ "." → b' ≠ ".." →
                  joinPath dir b' = prefix +:+ b'.
Proof.
  assert (∀ allow kept b', b' ≠ "" → b' ≠ "." → b' ≠ ".." →
            push_segment allow kept b' = b' :: kept) as Hpush.
  { intros allow kept b' H0 H1 H2. unfold push_segment.
    by rewrite !decide_False by done. }
  assert (∀ kept, ∃ pre, ∀ b', join_kept (b' :: kept) = pre +:+ b') as Hjoin.
  { intros kept. destruct kept as [|top rest].
    - by exists "".
    - exists (join_kept (top :: rest) +:+ "/"). intros b'.
      by rewrite append_assoc. }
  unfold joinPath. destruct (decide (dir = "")) as [->|Hdir].
  - exists "". intros b' Hs H0 H1 H2. rewrite decide_False by done.
    unfold normalize. rewrite decide_False by done. cbv zeta.
    rewrite (split_slash_plain b' Hs). cbn [fold_left]. rewrite Hpush by done.
    cbn [join_kept]. rewrite decide_False by done.
    rewrite (ends_with_slash_plain b' Hs).
    destruct b' as [|c b']; [done|]. cbn [has_slash] in Hs.
    apply orb_false_elim in Hs as [Hc _]. cbn [starts_with_slash]. rewrite Hc.
    by rewrite append_empty_r.
  - destruct (Hjoin (fold_left (push_segment (negb (starts_with_slash dir)))
                       (split_slash dir) [])) as (pre & Hpre).
    exists ((if starts_with_slash dir then "/" else "") +:+ pre).
    intros b' Hs H0 H1 H2. rewrite decide_False by done.
    unfold normalize. rewrite decide_False by (by destruct dir). cbv zeta.
    assert (starts_with_slash (dir +:+ "/" +:+ b') = starts_with_slash dir) as ->
      by (by destruct dir).
    rewrite split_slash_join, (split_slash_plain b' Hs), fold_left_app.
    cbn [fold_left]. rewrite Hpush by done. rewrite Hpre.
    rewrite decide_False by (by intros ?%append_empty_inv).
    assert (ends_with_slash (dir +:+ "/" +:+ b') = false) as ->.
    { rewrite ends_with_slash_append by (by destruct b').
      change ("/" +:+ b') with (String "/" b'). cbn [ends_with_slash].
      destruct b'; [done | by apply ends_with_slash_plain]. }
    by rewrite append_empty_r, append_assoc.
Qed.

Lemma joinPath_inj (dir b b' : string) :
  has_slash b = false → b ≠ "" → b ≠ "." → b ≠ ".." →
  has_slash b' = false → b' ≠ "" → b' ≠ "." → b' ≠ ".." →
  joinPath dir b = joinPath dir b' → b = b'.
Proof.
  intros Hs H0 H1 H2 Hs' H0' H1' H2'.
  destruct (joinPath_plain dir) as (prefix & Hp).
  rewrite !Hp by done. by intros ?%(inj (String.app prefix)).
Qed.

(** ** Blank titles *)

Lemma blank_trim (title : string) : blank title → trim title = "".
Proof.
  intros Hb. unfold trim.
  assert (trimStart title = "") as ->; [|done].
  induction Hb as [|c s Hc _ IH]; [done|].
  unfold white_space in Hc.
  repeat (apply elem_of_cons in Hc as [->|Hc]; [exact IH|]).
  by apply elem_of_nil in Hc.
Qed.

Lemma basename_blank (E : Env) (title : string) :
  default_slugify E → trim title = "" → basename_of E title = "untitled".
Proof.
  intros Hd Ht. unfold basename_of. cbv zeta. rewrite Ht.
  rewrite decide_True by done. rewrite Hd by (vm_compute; reflexivity).
  vm_compute. reflexivity.
Qed.

Lemma basename_my_post (E : Env) :
  default_slugify E → basename_of E "My Post!" = "my-post!".
Proof.
  intros Hd. unfold basename_of. cbv zeta.
  assert (trim "My Post!" = "My Post!") as -> by (vm_compute; reflexivity).
  rewrite decide_False by discriminate.
  rewrite Hd by (vm_compute; reflexivity).
  vm_compute. reflexivity.
Qed.

(** ** One entry after another *)

Lemma addToLibrary_first_free (E : Env) (w : world) (u title a key : string) (k : N) :
  faults E = [] → rootArchive w = Some a →
  (1 ≤ k < 1000000000)%N →
  (∀ j, (1 ≤ j < k)%N →
        is_Some (fs w !! joinPath (LIBRARY (PATHS E)) (candidate (basename_of E title) j))) →
  fs w !! joinPath (LIBRARY (PATHS E)) (candidate (basename_of E title) k) = None →
  url_key E u = Some key →
  ∃ w', addToLibrary E u title w = (Ok JSUndefined, w') ∧
    rootArchive w' = Some a ∧
    fs w' = <[joinPath (LIBRARY (PATHS E)) (candidate (basename_of E title) k) := Mount key]>
              (fs w).
Proof.
  intros Hq Ha Hk Hocc Hfree Hkey. unfold addToLibrary, addToLibraryUpTo.
  rewrite bind_run.
  destruct (getAvailableNameUpTo_first_free E 1000000000 (LIBRARY (PATHS E)) title k w a)
    as (w1 & -> & Hfs1 & _ & Ha1); try done.
  cbv beta iota. rewrite bind_run.
  destruct (ensureMount_quiet E
              (joinPath (LIBRARY (PATHS E)) (candidate (basename_of E title) k)) u w1 a
              Hq Ha1) as (w' & -> & Ha' & Hfs').
  exists w'. split; [done|]. split; [done|].
  rewrite Hfs'. unfold mount_fs. by rewrite Hkey, Hfs1, Hfree.
Qed.

Lemma getAvailableName_first_free (E : Env) (w : world) (dir title a : string) (k : N) :
  faults E = [] → rootArchive w = Some a →
  (1 ≤ k < 1000000000)%N →
  (∀ j, (1 ≤ j < k)%N →
        is_Some (fs w !! joinPath dir (candidate (basename_of E title) j))) →
  fs w !! joinPath dir (candidate (basename_of E title) k) = None →
  ∃ w', getAvailableName E dir title w
          = (Ok (if (k =? 1)%N then basename_of E title
                 else basename_of E title +:+ "-" +:+ pretty k), w') ∧
        fs w' = fs w.
Proof.
  intros Hq Ha Hk Hocc Hfree.
  destruct (getAvailableNameUpTo_first_free E 1000000000 dir title k w a)
    as (w' & Hrun & Hfs & _); try done.
  unfold getAvailableName. unfold candidate in Hrun.
  exists w'. split; [exact Hrun | exact Hfs].
Qed.

Lemma getAvailableName_names (E : Env) (w w' : world) (dir title name : string) :
  getAvailableName E dir title w = (Ok name, w') →
  (name = basename_of E title ∨
   ∃ i, (2 ≤ i)%N ∧ name = basename_of E title +:+ "-" +:+ pretty i) ∧
  name ≠ basename_of E title +:+ "-1".
Proof.
  unfold getAvailableName. intros (k & Hk & ->)%getAvailableNameUpTo_names.
  unfold candidate. destruct (N.eqb_spec k 1) as [->|Hk1]; split.
  - by left.
  - rewrite <- (append_empty_r (basename_of E title)) at 1.
    intros H%(inj (String.app _)). discriminate H.
  - right. exists k. split; [lia | done].
  - intros H%(inj (String.app _)).
    change (String "-" (pretty k) = String "-" "1") in H.
    injection H as H.
    assert (pretty 1%N = "1") as H1 by (vm_compute; reflexivity).
    rewrite <- H1 in H. by apply (inj pretty) in H.
Qed.

(** Three entries with one title, where the first three names are free. *)
Lemma my_post_names (E : Env) (w : world) (a u1 u2 k1 k2 : string) :
  default_slugify E → faults E = [] → rootArchive w = Some a →
  url_key E u1 = Some k1 →
  url_key E u2 = Some k2 →
  fs w !! joinPath (LIBRARY (PATHS E)) "my-post!" = None →
  fs w !! joinPath (LIBRARY (PATHS E)) "my-post!-2" = None →
  fs w !! joinPath (LIBRARY (PATHS E)) "my-post!-3" = None →
  let w1 := (addToLibrary E u1 "My Post!" w).2 in
  let w2 := (addToLibrary E u2 "My Post!" w1).2 in
  (getAvailableName E (LIBRARY (PATHS E)) "My Post!" w).1 = Ok "my-post!" ∧
  fs w1 = <[joinPath (LIBRARY (PATHS E)) "my-post!" := Mount k1]> (fs w) ∧
  (getAvailableName E (LIBRARY (PATHS E)) "My Post!" w1).1 = Ok "my-post!-2" ∧
  fs w2 = <[joinPath (LIBRARY (PATHS E)) "my-post!-2" := Mount k2]> (fs w1) ∧
  (getAvailableName E (LIBRARY (PATHS E)) "My Post!" w2).1 = Ok "my-post!-3".
Proof.
  intros Hd Hq Ha Hu1 Hu2 Hf1 Hf2 Hf3.
  set (lib := LIBRARY (PATHS E)) in *.
  pose proof (basename_my_post E Hd) as Hb.
  assert (candidate (basename_of E "My Post!") 1 = "my-post!") as Hc1
    by (rewrite Hb; vm_compute; reflexivity).
  assert (candidate (basename_of E "My Post!") 2 = "my-post!-2") as Hc2
    by (rewrite Hb; vm_compute; reflexivity).
  assert (candidate (basename_of E "My Post!") 3 = "my-post!-3") as Hc3
    by (rewrite Hb; vm_compute; reflexivity).
  assert (joinPath lib "my-post!" ≠ joinPath lib "my-post!-2") as H12
    by (intros H; apply joinPath_inj in H; [discriminate H | done..]).
  assert (joinPath lib "my-post!" ≠ joinPath lib "my-post!-3") as H13
    by (intros H; apply joinPath_inj in H; [discriminate H | done..]).
  assert (joinPath lib "my-post!-2" ≠ joinPath lib "my-post!-3") as H23
    by (intros H; apply joinPath_inj in H; [discriminate H | done..]).
  destruct (addToLibrary_first_free E w u1 "My Post!" a k1 1 Hq Ha)
    as (w1 & Hr1 & Ha1 & Hfs1); [lia | intros j Hj; lia | by rewrite Hc1 | done |].
  rewrite Hc1 in Hfs1.
  assert (is_Some (fs w1 !! joinPath lib "my-post!")) as Ho1.
  { rewrite Hfs1, lookup_insert_eq. by eexists. }
  assert (fs w1 !! joinPath lib "my-post!-2" = None) as Hn2.
  { by rewrite Hfs1, lookup_insert_ne. }
  destruct (addToLibrary_first_free E w1 u2 "My Post!" a k2 2 Hq Ha1)
    as (w2 & Hr2 & Ha2 & Hfs2); [lia | | by rewrite Hc2 | done |].
  { intros j Hj. assert (j = 1%N) as -> by lia. by rewrite Hc1. }
  rewrite Hc2 in Hfs2.
  destruct (getAvailableNameUpTo_first_free E 1000000000 lib "My Post!" 1 w a)
    as (w0' & Hrun0 & _); [done | done | lia | intros j Hj; lia | by rewrite Hc1 |].
  rewrite Hc1 in Hrun0.
  destruct (getAvailableNameUpTo_first_free E 1000000000 lib "My Post!" 2 w1 a)
    as (w1' & Hrun1 & _); [done | done | lia | | by rewrite Hc2 |].
  { intros j Hj. assert (j = 1%N) as -> by lia. by rewrite Hc1. }
  rewrite Hc2 in Hrun1.
  destruct (getAvailableNameUpTo_first_free E 1000000000 lib "My Post!" 3 w2 a)
    as (w2' & Hrun2 & _); [done | done | lia | | |].
  { intros j Hj. assert (j = 1 ∨ j = 2)%N as [-> | ->] by lia.
    - rewrite Hc1, Hfs2, lookup_insert_ne by done. exact Ho1.
    - rewrite Hc2, Hfs2, lookup_insert_eq. by eexists. }
  { rewrite Hc3, Hfs2, lookup_insert_ne by done.
    by rewrite Hfs1, lookup_insert_ne. }
  rewrite Hc3 in Hrun2.
  cbv zeta. unfold getAvailableName. fold lib.
  rewrite Hr1. cbn [snd]. rewrite Hr2. cbn [snd].
  rewrite Hrun0, Hrun1, Hrun2. cbn [fst].
  split; [reflexivity|]. split; [exact Hfs1|]. split; [reflexivity|].
  split; [exact Hfs2 | reflexivity].
Qed.

(** C6 (name allocation), as the code has it.  The slug function being
    the package's default one, which keeps the exclamation mark, and no
    external call rejecting: [getAvailableName] returns the first of the
    names slug, [slug-2], [slug-3], ... whose path is absent, and changes
    nothing in the archive; whatever is in the archive, a name it returns
    is the slug or [slug-i] with [i] from 2 on, never [slug-1]; for an
    empty or blank title the slug is untitled; and three entries titled
    My Post!, added one after the other where the library has nothing
    under these names, get the names my-post!, my-post!-2 and
    my-post!-3 (not my-post, my-post-2 and my-post-3). *)
Theorem name_allocation (E : Env) (w : world) (a : string) :
  default_slugify E →
  faults E = [] →
  rootArchive w = Some a →
  (∀ dir title k,
     (1 ≤ k < 1000000000)%N →
     (∀ j, (1 ≤ j < k)%N →
           is_Some (fs w !! joinPath dir (candidate (basename_of E title) j))) →
     fs w !! joinPath dir (candidate (basename_of E title) k) = None →
     ∃ w', getAvailableName E dir title w
             = (Ok (if (k =? 1)%N then basename_of E title
                    else basename_of E title +:+ "-" +:+ pretty k), w') ∧
           fs w' = fs w) ∧
  (∀ dir title name w',
     getAvailableName E dir title w = (Ok name, w') →
     (name = basename_of E title ∨
      ∃ i, (2 ≤ i)%N ∧ name = basename_of E title +:+ "-" +:+ pretty i) ∧
     name ≠ basename_of E title +:+ "-1") ∧
  (∀ title, blank title → basename_of E title = "untitled") ∧
  (∀ u1 u2 k1 k2,
     url_key E u1 = Some k1 →
     url_key E u2 = Some k2 →
     fs w !! joinPath (LIBRARY (PATHS E)) "my-post!" = None →
     fs w !! joinPath (LIBRARY (PATHS E)) "my-post!-2" = None →
     fs w !! joinPath (LIBRARY (PATHS E)) "my-post!-3" = None →
     let w1 := (addToLibrary E u1 "My Post!" w).2 in
     let w2 := (addToLibrary E u2 "My Post!" w1).2 in
     (getAvailableName E (LIBRARY (PATHS E)) "My Post!" w).1 = Ok "my-post!" ∧
     fs w1 = <[joinPath (LIBRARY (PATHS E)) "my-post!" := Mount k1]> (fs w) ∧
     (getAvailableName E (LIBRARY (PATHS E)) "My Post!" w1).1 = Ok "my-post!-2" ∧
     fs w2 = <[joinPath (LIBRARY (PATHS E)) "my-post!-2" := Mount k2]> (fs w1) ∧
     (getAvailableName E (LIBRARY (PATHS E)) "My Post!" w2).1 = Ok "my-post!-3").
Proof.
  intros Hd Hq Ha. split; [|split; [|split]].
  - intros dir title k. exact (getAvailableName_first_free E w dir title a k Hq Ha).
  - intros dir title name w'. exact (getAvailableName_names E w w' dir title name).
  - intros title Hb. exact (basename_blank E title Hd (blank_trim title Hb)).
  - intros u1 u2 k1 k2. exact (my_post_names E w a u1 u2 k1 k2 Hd Hq Ha).
Qed.

(** In a library with nothing in it, three entries titled My Post! get
    the names my-post!, my-post!-2 and my-post!-3; a second entry titled
    Notes gets notes-2; an empty title, and one of a space, a no-break
    space and a tab, get the name untitled. *)
Lemma name_allocation_witness :
  let E := plain_env [] [] in
  let w0 := loaded {["/library" := Dir]} in
  let w1 := (addToLibrary E "dat://cccc" "My Post!" w0).2 in
  let w2 := (addToLibrary E "dat://dddd" "My Post!" w1).2 in
  let wn := loaded {["/library" := Dir; "/library/notes" := Mount "cccc"]} in
  let spaces := " " +:+ utf8_2 194 160 +:+ String "009" "" in
  (getAvailableName E "/library" "My Post!" w0).1 = Ok "my-post!" ∧
  (getAvailableName E "/library" "My Post!" w1).1 = Ok "my-post!-2" ∧
  (getAvailableName E "/library" "My Post!" w2).1 = Ok "my-post!-3" ∧
  (getAvailableName E "/library" "Notes" wn).1 = Ok "notes-2" ∧
  (getAvailableName E "/library" "" w0).1 = Ok "untitled" ∧
  (getAvailableName E "/library" spaces w0).1 = Ok "untitled".
Proof.
  intros E w0 w1 w2 wn spaces.
  assert (default_slugify E) as Hd by (intros s _; reflexivity).
  destruct (name_allocation E w0 "dat://root" Hd)
    as (Hfirst & _ & Hblank & Hposts); [reflexivity | reflexivity |].
  destruct (name_allocation E wn "dat://root" Hd)
    as (Hnotes & _); [reflexivity | reflexivity |].
  destruct (Hposts "dat://cccc" "dat://dddd" "cccc" "dddd")
    as (H0 & _ & H1 & _ & H2); [vm_compute; reflexivity..|].
  assert (blank spaces) as Hs.
  { apply (blank_space " ").
    { do 5 apply list_elem_of_further. apply list_elem_of_here. }
    apply (blank_space (utf8_2 194 160)).
    { do 6 apply list_elem_of_further. apply list_elem_of_here. }
    apply (blank_space (String "009" "") "").
    { apply list_elem_of_here. }
    apply blank_empty. }
  split; [exact H0|]. split; [exact H1|]. split; [exact H2|].
  split; [|split].
  - destruct (Hnotes "/library" "Notes" 2%N) as (w' & Hrun & _).
    + lia.
    + intros j Hj. assert (j = 1%N) as -> by lia. vm_compute. by eexists.
    + vm_compute. reflexivity.
    + rewrite Hrun. vm_compute. reflexivity.
  - destruct (Hfirst "/library" "" 1%N) as (w' & Hrun & _).
    + lia.
    + intros j Hj. lia.
    + vm_compute. reflexivity.
    + rewrite Hrun. cbn [fst N.eqb Pos.eqb]. by rewrite (Hblank "" blank_empty).
  - destruct (Hfirst "/library" spaces 1%N) as (w' & Hrun & _).
    + lia.
    + intros j Hj. lia.
    + vm_compute. reflexivity.
    + rewrite Hrun. cbn [fst N.eqb Pos.eqb]. by rewrite (Hblank spaces Hs).
Defined.

(** C6 fails as stated: with the package's default slug rule the name
    allocated for My Post! in an empty library is my-post!, not my-post,
    and the entry is mounted under that name. *)
Lemma name_allocation_keeps_mark :
  let E := plain_env [] [] in
  let w := loaded {["/library" := Dir]} in
  (getAvailableName E "/library" "My Post!" w).1 = Ok "my-post!" ∧
  (getAvailableName E "/library" "My Post!" w).1 ≠ Ok "my-post" ∧
  fs (addToLibrary E "dat://cccc" "My Post!" w).2 !! "/library/my-post!"
    = Some (Mount "cccc") ∧
  fs (addToLibrary E "dat://cccc" "My Post!" w).2 !! "/library/my-post" = None.
Proof. vm_compute. repeat split; discriminate. Qed.

(** C7 (exhaustion).  Let the loop's bound be [ceiling] (1e9 in the
    source).  Whatever the world, name allocation makes at most
    [ceiling - 1] external calls: the search is bounded.  If all the
    [ceiling - 1] names are taken and no external call rejects, then
    [addToLibrary] ends by throwing the error of [getAvailableName] to its
    caller: nothing catches it, nothing is logged, nothing is mounted, and
    exactly [ceiling - 1] probes have been made. *)
Theorem allocation_exhausted (E : Env) (ceiling : N) (w : world) (u title a : string) :
  (length (trace (getAvailableNameUpTo E ceiling (LIBRARY (PATHS E)) title w).2)
   ≤ length (trace w) + N.to_nat (ceiling - 1))%nat ∧
  (faults E = [] →
   rootArchive w = Some a →
   (∀ j, (1 ≤ j < ceiling)%N →
         is_Some (fs w !! joinPath (LIBRARY (PATHS E))
                            (candidate (basename_of E title) j))) →
   ∃ w', addToLibraryUpTo E ceiling u title w
           = (Throw (Error ("Unable to find an available name for " +:+ title)), w') ∧
     fs w' = fs w ∧ log w' = log w ∧
     length (trace w') = (length (trace w) + N.to_nat (ceiling - 1))%nat).
Proof.
  split; [apply getAvailableNameUpTo_bounded|].
  intros Hq Ha Hocc. unfold addToLibraryUpTo. unfold bind at 1.
  destruct (getAvailableNameUpTo_exhausted E ceiling (LIBRARY (PATHS E)) title w a)
    as (w' & -> & Hrest); try done.
  by exists w'.
Qed.

Lemma allocation_exhausted_witness :
  let w := loaded {["/library" := Dir;
                    "/library/my-post" := Mount "cccc";
                    "/library/my-post-2" := Mount "dddd"]} in
  (addToLibraryUpTo (sample_env [] []) 3 "dat://eeee" "My Post!" w).1
  = Throw (Error "Unable to find an available name for My Post!").
Proof.
  intros w.
  destruct (allocation_exhausted (sample_env [] []) 3 w "dat://eeee" "My Post!" "dat://root")
    as [_ Hthrow].
  destruct Hthrow as (w' & -> & _); [reflexivity | reflexivity | | reflexivity].
  intros j Hj. assert (j = 1 ∨ j = 2)%N as [-> | ->] by lia; vm_compute; eauto.
Defined.

(** C9, as the code has it.  [addToLibrary] gets a name from
    [getAvailableName] and uses it for the mount under the library, but
    what its caller gets back is [undefined], not the name; and if
    [getAvailableName] throws, so does [addToLibrary], in the same world. *)
Theorem addToLibrary_returns_undefined (E : Env) (w : world) (u title : string) :
  match getAvailableName E (LIBRARY (PATHS E)) title w with
  | (Ok name, w1) =>
      addToLibrary E u title w
      = (Ok JSUndefined, (ensureMount E (joinPath (LIBRARY (PATHS E)) name) u w1).2)
  | (Throw e, w1) => addToLibrary E u title w = (Throw e, w1)
  end.
Proof.
  unfold addToLibrary, getAvailableName, addToLibraryUpTo. unfold bind at 1 3.
  destruct (getAvailableNameUpTo E _ _ title w) as [[name|e] w1]; [|done].
  unfold bind, ret.
  by destruct (ensureMount_any E (joinPath (LIBRARY (PATHS E)) name) u w1)
    as (w' & -> & _).
Qed.

(** C9 fails as stated: the name allocated for "My Post!" in an empty
    library is my-post, the mount is made under that name, and the caller
    gets [undefined]. *)
Lemma addToLibrary_name_not_returned :
  let E := sample_env [] [] in
  let w := loaded {["/library" := Dir]} in
  (getAvailableName E "/library" "My Post!" w).1 = Ok "my-post" ∧
  fs (addToLibrary E "dat://cccc" "My Post!" w).2 !! "/library/my-post"
    = Some (Mount "cccc") ∧
  (addToLibrary E "dat://cccc" "My Post!" w).1 = Ok JSUndefined ∧
  (addToLibrary E "dat://cccc" "My Post!" w).1 ≠ Ok (JSString "my-post").
Proof. vm_compute. repeat split; discriminate. Qed.

(** * The user mounts of [setup] *)

Lemma ensureMount_calls_pda (t : list op) :
  forallb is_pda_op t = true → ensureMount_calls t = [].
Proof.
  induction t as [|o t IH]; [done|]. intros [Ho Ht]%andb_prop.
  cbn [ensureMount_calls]. rewrite (IH Ht).
  destruct o; try done. destruct t as [|o' t]; [done|].
  by destruct o'.
Qed.

Lemma starts_with_probe_head (t : list op) :
  starts_with_probe t → head_not_resolve t.
Proof. by intros [->|(p & rest & ->)]. Qed.

Lemma pda_ops_head (t : list op) :
  forallb is_pda_op t = true → head_not_resolve t.
Proof. destruct t as [|[] t]; done. Qed.

Lemma ensureMount_calls_app (t1 t2 : list op) :
  head_not_resolve t2 →
  ensureMount_calls (t1 ++ t2) = ensureMount_calls t1 ++ ensureMount_calls t2.
Proof.
  intros Ht2. induction t1 as [|o t1 IH]; [done|].
  cbn [app ensureMount_calls]. rewrite IH.
  destruct o; try done.
  destruct t1 as [|o' t1]; cbn [app].
  - by destruct t2 as [|[] t2].
  - by destruct o'.
Qed.

Lemma ensureMount_calls_one (p u : string) (rest : list op) :
  forallb is_pda_op rest = true →
  ensureMount_calls (PdaStat p :: FromURLToKey u :: rest) = [(p, u)].
Proof.
  intros Hrest. cbn [ensureMount_calls].
  rewrite (ensureMount_calls_pda rest Hrest).
  by destruct rest.
Qed.

Section Mounts.

Variable E : Env.

Lemma setup_mounts_any (userList : list User) (w : world) :
  is_Some (rootArchive w) →
  ∃ w' suffix, setup_mounts E userList w = (Ok tt, w') ∧
    rootArchive w' = rootArchive w ∧
    trace w' = trace w ++ suffix ∧
    starts_with_probe suffix ∧
    ensureMount_calls suffix = wanted_mounts (PATHS E) userList.
Proof.
  revert w. induction userList as [|user l IH]; intros w Ha.
  - exists w, []. cbn. rewrite app_nil_r. repeat split; try done. by left.
  - cbn [setup_mounts for_of wanted_mounts flat_map]. rewrite !bind_run.
    (* the alias *)
    assert (∃ w1 s1,
      (if isDefault user then ensureMount E (DEFAULT_USER (PATHS E)) (url user)
       else ret tt) w = (Ok tt, w1) ∧
      rootArchive w1 = rootArchive w ∧ trace w1 = trace w ++ s1 ∧
      starts_with_probe s1 ∧
      ensureMount_calls s1
      = (if isDefault user then [(DEFAULT_USER (PATHS E), url user)] else []))
      as (w1 & s1 & -> & Ha1 & Ht1 & Hs1 & Hc1).
    { destruct (isDefault user).
      - destruct (ensureMount_any E (DEFAULT_USER (PATHS E)) (url user) w)
          as (w1 & Hrun & Ha1 & _ & Htr).
        destruct (Htr Ha) as (rest & Ht1 & Hrest).
        exists w1, (PdaStat (DEFAULT_USER (PATHS E)) :: FromURLToKey (url user) :: rest).
        repeat split; try done; [right; eauto | by apply ensureMount_calls_one].
      - exists w, []. cbn. rewrite app_nil_r. repeat split; try done. by left. }
    (* the user's own path *)
    assert (∃ w2 s2,
      (if negb (isTemporary user)
       then ensureMount E (USER (PATHS E) (label user)) (url user)
       else ret tt) w1 = (Ok tt, w2) ∧
      rootArchive w2 = rootArchive w1 ∧ trace w2 = trace w1 ++ s2 ∧
      starts_with_probe s2 ∧
      ensureMount_calls s2
      = (if negb (isTemporary user)
         then [(USER (PATHS E) (label user), url user)] else []))
      as (w2 & s2 & -> & Ha2 & Ht2 & Hs2 & Hc2).
    { destruct (negb (isTemporary user)).
      - destruct (ensureMount_any E (USER (PATHS E) (label user)) (url user) w1)
          as (w2 & Hrun & Ha2 & _ & Htr).
        destruct Htr as (rest & Ht2 & Hrest); [by rewrite Ha1|].
        exists w2, (PdaStat (USER (PATHS E) (label user)) :: FromURLToKey (url user) :: rest).
        repeat split; try done; [right; eauto | by apply ensureMount_calls_one].
      - exists w1, []. cbn. rewrite app_nil_r. repeat split; try done. by left. }
    destruct (IH w2) as (w' & s3 & Hrun & Ha3 & Ht3 & Hs3 & Hc3);
      [by rewrite Ha2, Ha1|].
    unfold setup_mounts in Hrun. rewrite Hrun.
    exists w', (s1 ++ s2 ++ s3). split; [done|].
    split; [by rewrite Ha3, Ha2, Ha1|].
    split; [by rewrite Ht3, Ht2, Ht1, <- !(assoc_L (++))|].
    assert (starts_with_probe (s2 ++ s3)) as Hs23.
    { destruct Hs2 as [->|(p & rest & ->)]; [done|]. right. cbn. eauto. }
    split.
    { destruct Hs1 as [->|(p & rest & ->)]; [done|]. right. cbn. eauto. }
    rewrite (ensureMount_calls_app s1) by by apply starts_with_probe_head.
    rewrite (ensureMount_calls_app s2) by by apply starts_with_probe_head.
    by rewrite Hc1, Hc2, Hc3, <- (assoc_L (++)).
Qed.

End Mounts.

(** * The whole of [setup] *)

(** ** Listings *)

Lemma string_app_assoc (s1 s2 s3 : string) :
  (s1 +:+ s2) +:+ s3 = s1 +:+ s2 +:+ s3.
Proof.
  induction s1 as [|c s1 IH]; [done|].
  change (String c ((s1 +:+ s2) +:+ s3) = String c (s1 +:+ s2 +:+ s3)).
  by f_equal.
Qed.

Lemma strip_prefix_app (p s : string) : strip_prefix p (p +:+ s) = Some s.
Proof.
  induction p as [|c p IH]; [done|].
  change (strip_prefix (String c p) (String c (p +:+ s)) = Some s).
  cbn [strip_prefix]. by rewrite decide_True.
Qed.

(** Every direct entry of [dir] is listed. *)
Lemma readdir_names_complete (m : gmap string node) (dir n : string) (x : node) :
  m !! (dir +:+ "/" +:+ n) = Some x →
  n ≠ "" → has_slash n = false →
  n ∈ readdir_names m dir.
Proof.
  intros Hm Hn Hslash. unfold readdir_names.
  apply list_elem_of_omap. exists (dir +:+ "/" +:+ n, x).
  split; [by apply elem_of_map_to_list|].
  unfold child_name. cbn [fst].
  rewrite <- string_app_assoc, strip_prefix_app, Hslash.
  by rewrite bool_decide_eq_false_2.
Qed.

Lemma USER_inj (P : PATHS_t) (n1 n2 : string) :
  PATHS_wf P → USER P n1 = USER P n2 → n1 = n2.
Proof.
  intros HP. rewrite !(USER_under_USERS P HP). intros H.
  apply (inj (String.app _)) in H. by apply (inj (String.app "/")) in H.
Qed.

Lemma sample_PATHS_wf : PATHS_wf sample_PATHS.
Proof.
  split.
  - done.
  - intros n. discriminate.
  - intros n Hin. cbn in Hin.
    repeat (apply elem_of_cons in Hin as [Hin|Hin]; [discriminate|]).
    by apply elem_of_nil in Hin.
  - intros Hin. cbn in Hin.
    repeat (apply elem_of_cons in Hin as [Hin|Hin]; [discriminate|]).
    by apply elem_of_nil in Hin.
Qed.

Lemma mount_fs_other p q key (m : gmap string node) :
  q ≠ p → mount_fs p key m !! q = m !! q.
Proof.
  intros Hne. unfold mount_fs.
  destruct key as [k|]; [|done].
  destruct (m !! p) as [[| |k0]|]; try done.
  - destruct (String.eqb k0 k); [done|]. by rewrite lookup_insert_ne.
  - by rewrite lookup_insert_ne.
Qed.

Lemma mount_fs_set p k (m : gmap string node) :
  free_or_mount (m !! p) → mount_fs p (Some k) m !! p = Some (Mount k).
Proof.
  unfold mount_fs. intros [H|[k0 H]]; rewrite H.
  - by rewrite lookup_insert_eq.
  - destruct (String.eqb_spec k0 k) as [->|_]; [done|by rewrite lookup_insert_eq].
Qed.

Lemma mount_fs_free_or_mount p q key (m : gmap string node) :
  free_or_mount (m !! q) → free_or_mount (mount_fs p key m !! q).
Proof.
  intros Hq. destruct (decide (q = p)) as [->|Hne]; [|by rewrite mount_fs_other].
  destruct key as [k|]; [|exact Hq].
  rewrite mount_fs_set by done. right. eauto.
Qed.

Section Stages.

Variable E : Env.
Implicit Types (w : world) (userList : list User).

(** The common directories: whatever fails, only their own paths can
    change. *)
Lemma setup_dirs_any w :
  ∃ w', setup_dirs E w = (Ok tt, w') ∧
    rootArchive w' = rootArchive w ∧
    (∀ q, q ∉ fixed_dirs (PATHS E) → fs w' !! q = fs w !! q).
Proof.
  unfold setup_dirs, fixed_dirs.
  repeat
    (rewrite bind_run;
     match goal with
     | |- context [ensureDir E ?p ?w0] =>
         let w1 := fresh "w" in
         let Hr := fresh "Hr" in
         let Ha := fresh "Ha" in
         let Hf := fresh "Hf" in
         destruct (ensureDir_any E p w0) as (w1 & Hr & Ha & Hf); rewrite Hr
     end).
  destruct (ensureDir_any E (USERS (PATHS E)) w4) as (w5 & Hr5 & Ha5 & Hf5).
  rewrite Hr5. exists w5. split; [done|]. split; [congruence|].
  intros q Hq.
  rewrite Hf5, Hf3, Hf2, Hf1, Hf0, Hf; [done|..];
    intros ->; apply Hq; set_solver.
Qed.

Lemma setup_mounts_quiet userList w a :
  faults E = [] → rootArchive w = Some a →
  ∃ w', setup_mounts E userList w = (Ok tt, w') ∧
    rootArchive w' = Some a ∧
    fs w' = foldl (user_fs (PATHS E) (url_key E)) (fs w) userList.
Proof.
  intros Hq. revert w. induction userList as [|user l IH]; intros w Ha.
  - by exists w.
  - cbn [setup_mounts for_of foldl]. rewrite !bind_run.
    assert (∃ w1,
      (if isDefault user then ensureMount E (DEFAULT_USER (PATHS E)) (url user)
       else ret tt) w = (Ok tt, w1) ∧
      rootArchive w1 = Some a ∧
      fs w1 = (if isDefault user
               then mount_fs (DEFAULT_USER (PATHS E)) (url_key E (url user)) (fs w)
               else fs w)) as (w1 & -> & Ha1 & Hfs1).
    { destruct (isDefault user); [by apply ensureMount_quiet | by exists w]. }
    assert (∃ w2,
      (if negb (isTemporary user)
       then ensureMount E (USER (PATHS E) (label user)) (url user)
       else ret tt) w1 = (Ok tt, w2) ∧
      rootArchive w2 = Some a ∧
      fs w2 = user_fs (PATHS E) (url_key E) (fs w) user) as (w2 & -> & Ha2 & Hfs2).
    { unfold user_fs. cbv zeta. rewrite <- Hfs1.
      destruct (negb (isTemporary user)); [by apply ensureMount_quiet | by exists w1]. }
    destruct (IH w2 Ha2) as (w' & Hrun & Ha' & Hfs').
    unfold setup_mounts in Hrun. rewrite Hrun.
    exists w'. by rewrite Hfs', Hfs2.
Qed.

Lemma sweep_loop_quiet userList (names : list string) w a :
  faults E = [] → rootArchive w = Some a →
  ∃ w',
    for_of names (λ filename,
      match List.find (λ u, String.eqb (label u) filename) userList with
      | None =>
          let path := USER (PATHS E) filename in
          let! st := stat E path in
          match st with
          | Some (mkStat _ (Some _)) =>
              logger_info "Removing old /users mount" path >>
              pda_unmount E path
          | _ => ret tt
          end
      | Some _ => ret tt
      end) w = (Ok tt, w') ∧
    rootArchive w' = Some a ∧
    fs w' = foldl (sweep_fs (PATHS E) userList) (fs w) names.
Proof.
  intros Hq. revert w. induction names as [|n names IH]; intros w Ha.
  - by exists w.
  - cbn [for_of foldl]. rewrite bind_run.
    match goal with
    | |- context [match ?step w with _ => _ end] =>
        assert (∃ w1, step w = (Ok tt, w1) ∧ rootArchive w1 = Some a ∧
                      fs w1 = sweep_fs (PATHS E) userList (fs w) n)
          as (w1 & -> & Ha1 & Hfs1)
    end.
    { unfold sweep_fs, unmount_fs.
      destruct (List.find _ userList); [by exists w|].
      cbv zeta. clear IH. open_calls.
      crunch; try congruence; eexists; (split; [reflexivity|]); cbn; by crunch. }
    destruct (IH w1 Ha1) as (w' & Hrun & Ha' & Hfs').
    cbv zeta in Hrun. rewrite Hrun. exists w'. by rewrite Hfs', Hfs1.
Qed.

Lemma setup_sweep_quiet userList w a :
  faults E = [] → rootArchive w = Some a →
  ∃ w', setup_sweep E userList w = (Ok tt, w') ∧
    rootArchive w' = Some a ∧
    fs w' = foldl (sweep_fs (PATHS E) userList) (fs w)
              (readdir_names (fs w) (USERS (PATHS E))).
Proof.
  intros Hq Ha. unfold setup_sweep. rewrite bind_run.
  assert (pda_readdir E (USERS (PATHS E)) w
          = (Ok (readdir_names (fs w) (USERS (PATHS E))),
             add_trace (PdaReaddir (USERS (PATHS E))) w)) as ->.
  { open_calls. by crunch. }
  exact (sweep_loop_quiet userList (readdir_names (fs w) (USERS (PATHS E)))
           (add_trace (PdaReaddir (USERS (PATHS E))) w) a Hq Ha).
Qed.

End Stages.

(** ** The loops on the paths alone *)

Section Folds.

Variable P : PATHS_t.
Variable key : string → option string.
Implicit Types (m : gmap string node) (l : list User) (q n : string).

Lemma user_fs_free_or_mount m user q :
  free_or_mount (m !! q) → free_or_mount (user_fs P key m user !! q).
Proof.
  intros Hq. unfold user_fs. cbv zeta.
  destruct (isDefault user), (negb (isTemporary user));
    by repeat apply mount_fs_free_or_mount.
Qed.

Lemma mounts_fold_free_or_mount l m q :
  free_or_mount (m !! q) → free_or_mount (foldl (user_fs P key) m l !! q).
Proof.
  revert m. induction l as [|user l IH]; intros m Hq; [done|].
  cbn [foldl]. by apply IH, user_fs_free_or_mount.
Qed.

Lemma user_fs_frame m user q :
  (isDefault user = true → q ≠ DEFAULT_USER P) →
  (isTemporary user = false → q ≠ USER P (label user)) →
  user_fs P key m user !! q = m !! q.
Proof.
  intros Hd Ht. unfold user_fs. cbv zeta.
  destruct (isDefault user), (isTemporary user); cbn [negb];
    rewrite ?mount_fs_other by auto; done.
Qed.

Lemma mounts_fold_frame l m q :
  (∀ user, user ∈ l → isDefault user = true → q ≠ DEFAULT_USER P) →
  (∀ user, user ∈ l → isTemporary user = false → q ≠ USER P (label user)) →
  foldl (user_fs P key) m l !! q = m !! q.
Proof.
  revert m. induction l as [|user l IH]; intros m Hd Ht; [done|].
  cbn [foldl]. rewrite IH.
  - apply user_fs_frame; [apply Hd | apply Ht]; by left.
  - intros u Hu. apply Hd. by right.
  - intros u Hu. apply Ht. by right.
Qed.

(** A user who is not temporary ends up mounted at the user's path. *)
Lemma mounts_fold_user l m user k :
  PATHS_wf P →
  NoDup (label <$> l) →
  user ∈ l →
  isTemporary user = false →
  key (url user) = Some k →
  free_or_mount (m !! USER P (label user)) →
  foldl (user_fs P key) m l !! USER P (label user) = Some (Mount k).
Proof.
  intros HP. revert m. induction l as [|u0 l IH]; intros m Hnd Hin Htmp Hk Hfree.
  { by apply elem_of_nil in Hin. }
  rewrite fmap_cons in Hnd. apply NoDup_cons in Hnd as [Hfresh Hnd].
  cbn [foldl]. apply elem_of_cons in Hin as [<-|Hin].
  - rewrite mounts_fold_frame.
    + unfold user_fs. cbv zeta. rewrite Htmp, Hk. cbn [negb].
      apply mount_fs_set.
      destruct (isDefault user); [by apply mount_fs_free_or_mount | done].
    + intros u _ _ Heq. by apply (alias_not_USER P HP (label user)).
    + intros u Hu _ Heq. apply (USER_inj P _ _ HP) in Heq.
      apply Hfresh. rewrite Heq. apply list_elem_of_fmap. eauto.
  - apply IH; try done. by apply user_fs_free_or_mount.
Qed.

(** The last user flagged default ends up mounted at the alias. *)
Lemma mounts_fold_alias l1 d l2 m k :
  PATHS_wf P →
  isDefault d = true →
  (∀ user, user ∈ l2 → isDefault user = false) →
  key (url d) = Some k →
  free_or_mount (m !! DEFAULT_USER P) →
  foldl (user_fs P key) m (l1 ++ d :: l2) !! DEFAULT_USER P = Some (Mount k).
Proof.
  intros HP Hd Hl2 Hk Hfree.
  rewrite foldl_app. cbn [foldl]. rewrite mounts_fold_frame.
  - unfold user_fs. cbv zeta. rewrite Hd, Hk.
    pose proof (mounts_fold_free_or_mount l1 m _ Hfree) as Hfree1.
    destruct (negb (isTemporary d)).
    + rewrite mount_fs_other by apply (alias_not_USER P HP).
      by apply mount_fs_set.
    + by apply mount_fs_set.
  - intros u Hu Hdu. rewrite (Hl2 u Hu) in Hdu. discriminate.
  - intros u _ _. apply (alias_not_USER P HP).
Qed.

Variable userList : list User.

Lemma sweep_fs_step m n q :
  sweep_fs P userList m n !! q = m !! q ∨
  (sweep_fs P userList m n !! q = None ∧
   List.find (λ u, String.eqb (label u) n) userList = None ∧
   q = USER P n ∧ ∃ k, m !! q = Some (Mount k)).
Proof.
  unfold sweep_fs, unmount_fs.
  destruct (List.find _ userList); [by left|].
  destruct (m !! USER P n) as [[| |k]|] eqn:Hn; try by left.
  destruct (decide (q = USER P n)) as [->|Hne].
  - right. rewrite lookup_delete_eq. eauto.
  - left. by rewrite lookup_delete_ne.
Qed.

(** The sweep changes a path only by taking a mount away from it, and
    only at the path of a listed name that no user has as label. *)
Lemma sweep_fold_frame (names : list string) m q :
  foldl (sweep_fs P userList) m names !! q = m !! q ∨
  (foldl (sweep_fs P userList) m names !! q = None ∧
   ∃ n k, n ∈ names ∧
     List.find (λ u, String.eqb (label u) n) userList = None ∧
     q = USER P n ∧ m !! q = Some (Mount k)).
Proof.
  revert m. induction names as [|n0 names IH]; intros m; [by left|].
  cbn [foldl].
  destruct (IH (sweep_fs P userList m n0)) as [Hr|(Hr & n & k & Hn & Hfind & Hq & Hm1)];
    destruct (sweep_fs_step m n0 q) as [Hs|(Hs & Hfind0 & Hq0 & k0 & Hm)].
  - left. congruence.
  - right. split; [congruence|]. exists n0, k0. repeat split; try done. by left.
  - right. split; [done|]. exists n, k. repeat split; try done; [by right | congruence].
  - congruence.
Qed.

Lemma sweep_fold_detaches (names : list string) m n k :
  n ∈ names →
  List.find (λ u, String.eqb (label u) n) userList = None →
  m !! USER P n = Some (Mount k) →
  foldl (sweep_fs P userList) m names !! USER P n = None.
Proof.
  revert m. induction names as [|n0 names IH]; intros m Hin Hfind Hm.
  { by apply elem_of_nil in Hin. }
  cbn [foldl].
  destruct (sweep_fs_step m n0 (USER P n)) as [Hs|(Hs & _)].
  - apply elem_of_cons in Hin as [->|Hin].
    + unfold sweep_fs, unmount_fs in Hs. rewrite Hfind, Hm in Hs.
      rewrite lookup_delete_eq in Hs. congruence.
    + apply IH; [done | done | congruence].
  - destruct (sweep_fold_frame names (sweep_fs P userList m n0) (USER P n))
      as [Hr|[Hr _]]; congruence.
Qed.

Lemma find_label_none n :
  List.find (λ u, String.eqb (label u) n) userList = None ↔
  ∀ user, user ∈ userList → label user ≠ n.
Proof.
  split.
  - intros Hfind user Hin Heq.
    pose proof (find_none _ _ Hfind user (proj1 (list_elem_of_In _ _) Hin)) as Hf.
    cbn in Hf. by apply String.eqb_neq in Hf.
  - intros Hnone. destruct (List.find _ userList) as [user|] eqn:Hfind; [|done].
    apply find_some in Hfind as [Hin Heq]. apply String.eqb_eq in Heq.
    by destruct (Hnone user (proj2 (list_elem_of_In _ _) Hin)).
Qed.

End Folds.

(** C2, as the code has it.  With no external call rejecting, the sweep
    completes and: every entry directly under the users root whose name
    is the label of no user of the list (temporary or not) and which is
    a mount is unmounted; the path of every user of the list is left as
    it was; and no path changes except by losing a mount. *)
Theorem sweep_detaches_stale (E : Env) (userList : list User) (w : world) (a : string) :
  faults E = [] →
  rootArchive w = Some a →
  PATHS_wf (PATHS E) →
  ∃ w', setup_sweep E userList w = (Ok tt, w') ∧
    (∀ n k, n ≠ "" → has_slash n = false →
       fs w !! USER (PATHS E) n = Some (Mount k) →
       (∀ user, user ∈ userList → label user ≠ n) →
       fs w' !! USER (PATHS E) n = None) ∧
    (∀ user, user ∈ userList →
       fs w' !! USER (PATHS E) (label user) = fs w !! USER (PATHS E) (label user)) ∧
    (∀ q, fs w' !! q = fs w !! q ∨
          (fs w' !! q = None ∧ ∃ k, fs w !! q = Some (Mount k))).
Proof.
  intros Hq Ha HP.
  destruct (setup_sweep_quiet E userList w a Hq Ha) as (w' & Hrun & _ & Hfs).
  exists w'. split; [done|]. rewrite Hfs. split; [|split].
  - intros n k Hn Hslash Hm Hnone.
    apply (sweep_fold_detaches _ _ _ _ _ k); [|by apply find_label_none|done].
    rewrite (USER_under_USERS _ HP) in Hm.
    by apply (readdir_names_complete _ _ _ _ Hm).
  - intros user Hin.
    destruct (sweep_fold_frame (PATHS E) userList
                (readdir_names (fs w) (USERS (PATHS E))) (fs w)
                (USER (PATHS E) (label user)))
      as [Hr|(_ & n & k & _ & Hfind & Heq & _)]; [done|].
    apply (USER_inj _ _ _ HP) in Heq. subst n.
    by destruct (proj1 (find_label_none userList (label user)) Hfind user Hin).
  - intros q.
    destruct (sweep_fold_frame (PATHS E) userList
                (readdir_names (fs w) (USERS (PATHS E))) (fs w) q)
      as [Hr|(Hr & n & k & _ & _ & _ & Hm)]; [by left|right; eauto].
Qed.

Lemma sweep_detaches_stale_witness :
  let alice := mkUser "alice" "dat://aaaa" true false in
  let w := loaded {["/users" := Dir;
                    "/users/alice" := Mount "aaaa";
                    "/users/bob" := Mount "bbbb"]} in
  ∃ w', setup_sweep (sample_env [alice] []) [alice] w = (Ok tt, w') ∧
        fs w' !! "/users/bob" = None ∧
        fs w' !! "/users/alice" = Some (Mount "aaaa").
Proof.
  intros alice w.
  destruct (sweep_detaches_stale (sample_env [alice] []) [alice] w "dat://root")
    as (w' & Hrun & Hstale & Hkept & _);
    [reflexivity | reflexivity | apply sample_PATHS_wf |].
  exists w'. split; [done|]. split.
  - apply (Hstale "bob" "bbbb"); [done | done | done |].
    intros user ->%list_elem_of_singleton. discriminate.
  - apply (Hkept alice). by apply list_elem_of_singleton.
Defined.

(** C2 fails as stated: the mount under the label of a temporary user
    matches no user who is not temporary, and still the sweep, and the
    whole of [setup], leave it in place. *)
Lemma sweep_keeps_mount_of_temporary :
  let guest := mkUser "guest" "dat://9999" false true in
  let E := sample_env [guest] [] in
  let m : gmap string node := {["/users" := Dir; "/users/guest" := Mount "9999"]} in
  readdir_names m "/users" = ["guest"] ∧
  (setup_sweep E [guest] (loaded m)).1 = Ok tt ∧
  fs (setup_sweep E [guest] (loaded m)).2 !! "/users/guest" = Some (Mount "9999") ∧
  (setup E (at_start m (Some (mkProfile (Some "dat://root"))))).1 = Ok tt ∧
  fs (setup E (at_start m (Some (mkProfile (Some "dat://root"))))).2 !! "/users/guest"
    = Some (Mount "9999").
Proof. vm_compute. done. Qed.

(** ** [setup] from start to end *)

Section Setup.

Variable E : Env.

Lemma setup_load_quiet (w : world) (prof : profile) :
  faults E = [] → db_profile w = Some prof →
  ∃ w1 root, setup_load E w = (Ok (users_list E), w1) ∧
    rootArchive w1 = Some root ∧ fs w1 = fs w.
Proof.
  intros Hq Hdb. unfold setup_load, external, logger_info. unfold_m.
  crunch; eauto.
Qed.

(** When no external call rejects, [setup] completes, and the paths it
    leaves are those of the three loops, one after the other. *)
Lemma setup_quiet (w : world) (prof : profile) :
  faults E = [] → db_profile w = Some prof →
  ∃ w' m1, setup E w = (Ok tt, w') ∧
    (∀ q, q ∉ fixed_dirs (PATHS E) → m1 !! q = fs w !! q) ∧
    let m2 := foldl (user_fs (PATHS E) (url_key E)) m1 (users_list E) in
    fs w' = foldl (sweep_fs (PATHS E) (users_list E)) m2
              (readdir_names m2 (USERS (PATHS E))).
Proof.
  intros Hq Hdb. unfold setup. rewrite bind_run.
  destruct (setup_load_quiet w prof Hq Hdb) as (w1 & root & -> & Ha1 & Hfs1).
  rewrite bind_run. unfold gets at 1. rewrite bind_run. unfold logger_info, modify.
  set (w2 := add_log _ w1).
  unfold setup_enforce. rewrite try_catch_run, bind_run.
  destruct (setup_dirs_any E w2) as (w3 & -> & Ha3 & Hfs3).
  cbv beta iota. rewrite bind_run.
  destruct (setup_mounts_quiet E (users_list E) w3 root Hq) as (w4 & -> & Ha4 & Hfs4).
  { by rewrite Ha3. }
  cbv beta iota.
  destruct (setup_sweep_quiet E (users_list E) w4 root Hq Ha4) as (w5 & -> & Ha5 & Hfs5).
  exists w5, (fs w3). split; [done|]. split.
  - intros q Hq'. rewrite (Hfs3 q Hq'). exact (f_equal (.!! q) Hfs1).
  - cbv zeta. by rewrite Hfs5, Hfs4.
Qed.

End Setup.

(** C1, as the code has it.  Let no external call reject, let the
    profile row exist, and let the labels of the users be distinct.  Then
    [setup] completes, and afterwards: the path of every user who is not
    temporary and whose url resolves is a mount bound to the resolved
    key, provided the path was absent or a mount to begin with (a file or
    directory found there is left alone); and the alias is a mount bound
    to the key of the last user flagged default, under the same
    provisos. *)
Theorem setup_convergence (E : Env) (w : world) (prof : profile) :
  faults E = [] →
  db_profile w = Some prof →
  PATHS_wf (PATHS E) →
  NoDup (label <$> users_list E) →
  ∃ w', setup E w = (Ok tt, w') ∧
    (∀ user k,
       user ∈ users_list E →
       isTemporary user = false →
       url_key E (url user) = Some k →
       free_or_mount (fs w !! USER (PATHS E) (label user)) →
       fs w' !! USER (PATHS E) (label user) = Some (Mount k)) ∧
    (∀ l1 d l2 k,
       users_list E = l1 ++ d :: l2 →
       isDefault d = true →
       (∀ user, user ∈ l2 → isDefault user = false) →
       url_key E (url d) = Some k →
       free_or_mount (fs w !! DEFAULT_USER (PATHS E)) →
       fs w' !! DEFAULT_USER (PATHS E) = Some (Mount k)).
Proof.
  intros Hq Hdb HP Hnd.
  destruct (setup_quiet E w prof Hq Hdb) as (w' & m1 & Hrun & Hm1 & Hfs).
  cbv zeta in Hfs. exists w'. split; [done|]. rewrite Hfs. split.
  - intros user k Hin Htmp Hk Hfree.
    rewrite <- Hm1 in Hfree by apply (USER_not_fixed _ HP).
    pose proof (mounts_fold_user (PATHS E) (url_key E) _ m1 user k
                  HP Hnd Hin Htmp Hk Hfree) as Hm2.
    match goal with
    | |- foldl _ ?m2 ?names !! ?q = _ =>
        destruct (sweep_fold_frame (PATHS E) (users_list E) names m2 q)
          as [Hr|(_ & n & k' & _ & Hfind & Heq & _)]
    end.
    + by rewrite Hr.
    + apply (USER_inj _ _ _ HP) in Heq. subst n.
      by destruct (proj1 (find_label_none (users_list E) (label user)) Hfind user Hin).
  - intros l1 d l2 k Hl Hd Hl2 Hk Hfree.
    rewrite <- Hm1 in Hfree by apply (alias_not_fixed _ HP).
    rewrite Hl.
    pose proof (mounts_fold_alias (PATHS E) (url_key E) l1 d l2 m1 k
                  HP Hd Hl2 Hk Hfree) as Hm2.
    match goal with
    | |- foldl _ ?m2 ?names !! ?q = _ =>
        destruct (sweep_fold_frame (PATHS E) (l1 ++ d :: l2) names m2 q)
          as [Hr|(_ & n & k' & _ & _ & Heq & _)]
    end.
    + by rewrite Hr.
    + by destruct (alias_not_USER _ HP n).
Qed.

Lemma setup_convergence_witness :
  let alice := mkUser "alice" "dat://aaaa" true false in
  let bob := mkUser "bob" "dat://bbbb" false false in
  let w := at_start {["/users/bob" := Mount "0000"]} (Some (mkProfile None)) in
  ∃ w', setup (sample_env [alice; bob] []) w = (Ok tt, w') ∧
    fs w' !! "/users/alice" = Some (Mount "aaaa") ∧
    fs w' !! "/users/bob" = Some (Mount "bbbb") ∧
    fs w' !! "/public" = Some (Mount "aaaa").
Proof.
  intros alice bob w.
  destruct (setup_convergence (sample_env [alice; bob] []) w (mkProfile None))
    as (w' & Hrun & Huser & Halias);
    [reflexivity | reflexivity | apply sample_PATHS_wf
    | apply (bool_decide_unpack (NoDup _)); vm_compute; exact I |].
  exists w'. split; [done|]. split; [|split].
  - apply (Huser alice "aaaa");
      [apply elem_of_cons; by left | reflexivity | reflexivity | by left].
  - apply (Huser bob "bbbb");
      [apply elem_of_cons; right; apply elem_of_cons; by left
      | reflexivity | reflexivity | right; by exists "0000"].
  - apply (Halias [] alice [bob] "aaaa");
      [reflexivity | reflexivity | | reflexivity | by left].
    intros user ->%list_elem_of_singleton. reflexivity.
Defined.

(** C1 fails as stated: a file at the path of a user who is not temporary
    is still there, and still a file, after [setup] has completed. *)
Lemma setup_leaves_file_at_user_path :
  let carol := mkUser "carol" "dat://cccc" false false in
  let E := sample_env [carol] [] in
  let w := at_start {["/users" := Dir; "/users/carol" := File "notes"]}
                    (Some (mkProfile (Some "dat://root"))) in
  isTemporary carol = false ∧
  (setup E w).1 = Ok tt ∧
  fs (setup E w).2 !! "/users/carol" = Some (File "notes") ∧
  fs (setup E w).2 !! "/users/carol" ≠ Some (Mount "cccc").
Proof. vm_compute. repeat split; discriminate. Qed.

(** C8, as the code has it.  The [try] block of [setup] (the directories,
    the user mounts, the sweep) never fails outward, whatever rejects: an
    error thrown inside it is caught, written to the console and to the
    log, and dropped.  What comes before the block (the trash, the profile
    row, the creation and the loading of the root archive, the users) is
    not guarded: [setup] throws exactly when one of these throws, with the
    same error and in the same world, and completes otherwise. *)
Theorem setup_failure_containment (E : Env) (w : world) :
  (∀ userList w0,
     match (setup_dirs E >> setup_mounts E userList >> setup_sweep E userList) w0 with
     | (Ok _, w1) => setup_enforce E userList w0 = (Ok tt, w1)
     | (Throw _, w1) =>
         setup_enforce E userList w0
         = (Ok tt,
            add_log (mkDiag LError "Error while constructing the root archive" "")
              (add_log (mkDiag LConsole "Error while constructing the root archive" "")
                 w1))
     end) ∧
  match setup_load E w with
  | (Ok _, _) => ∃ w', setup E w = (Ok tt, w')
  | (Throw e, w1) => setup E w = (Throw e, w1)
  end.
Proof.
  split.
  - intros userList w0. unfold setup_enforce. rewrite try_catch_run.
    by destruct ((setup_dirs E >> setup_mounts E userList >> setup_sweep E userList) w0)
      as [[[]|e] w1].
  - unfold setup. rewrite bind_run.
    destruct (setup_load E w) as [[userList|e] w1]; [|done].
    rewrite bind_run. unfold gets at 1. rewrite bind_run.
    unfold logger_info, modify, setup_enforce. rewrite try_catch_run.
    match goal with
    | |- context [match ?block ?w2 with _ => _ end] =>
        destruct (block w2) as [[[]|e] w3]
    end; eauto.
Qed.

(** C8 fails as stated: when reading the profile row, creating the root
    archive, loading it or setting up the users rejects, [setup] throws
    that error to its caller and logs no error. *)
Lemma setup_load_failure_escapes :
  let w := at_start ∅ (Some (mkProfile None)) in
  (setup (sample_env [] [1]) w).1 = Throw (Failure DbGet) ∧
  (setup (sample_env [] [2]) w).1 = Throw (Failure CreateNewRootArchive) ∧
  (setup (sample_env [] [4]) w).1 = Throw (Failure (GetOrLoadArchive "dat://root")) ∧
  (setup (sample_env [] [5]) w).1 = Throw (Failure UsersSetup) ∧
  log (setup (sample_env [] [1]) w).2 = [] ∧
  (setup (sample_env [] []) (at_start ∅ None)).1 = Throw (TypeError "browsingProfile").
Proof. vm_compute. done. Qed.

(** ** The calls of [ensureMount] in the whole of [setup] *)

Lemma pda_only_refl (w : world) : pda_only w w.
Proof. split; [done|]. exists []. by rewrite app_nil_r. Qed.

Lemma pda_only_trans (w1 w2 w3 : world) :
  pda_only w1 w2 → pda_only w2 w3 → pda_only w1 w3.
Proof.
  intros [Ha1 (r1 & Ht1 & Hr1)] [Ha2 (r2 & Ht2 & Hr2)].
  split; [congruence|]. exists (r1 ++ r2).
  rewrite Ht2, Ht1, <- (assoc_L (++)). split; [done|].
  rewrite forallb_app. by rewrite Hr1, Hr2.
Qed.

Lemma pda_only_bind {A B} (m : M A) (k : A → M B) (w : world) :
  pda_only w (m w).2 →
  (∀ a w1, pda_only w1 (k a w1).2) →
  pda_only w (bind m k w).2.
Proof.
  intros Hm Hk. rewrite bind_run.
  destruct (m w) as [[a|e] w1]; [|done].
  exact (pda_only_trans _ _ _ Hm (Hk a w1)).
Qed.

Lemma pda_only_for_of {A} (l : list A) (body : A → M unit) (w : world) :
  (∀ x w1, pda_only w1 (body x w1).2) →
  pda_only w (for_of l body w).2.
Proof.
  intros Hbody. revert w. induction l as [|x l IH]; intros w.
  - apply pda_only_refl.
  - cbn [for_of]. apply pda_only_bind; [apply Hbody | intros _ w1; apply IH].
Qed.

Ltac solve_suffix :=
  cbn;
  first [ by (exists []; rewrite app_nil_r)
        | eexists; split; [rewrite <- ?(assoc_L (++)); reflexivity | done] ].

Section Traces.

Variable E : Env.

Lemma ensureDir_pda_only (p : string) (w : world) :
  pda_only w (ensureDir E p w).2.
Proof.
  unfold pda_only. open_calls.
  crunch; (split; [done|]); solve_suffix.
Qed.

Lemma setup_dirs_pda_only (w : world) : pda_only w (setup_dirs E w).2.
Proof.
  unfold setup_dirs.
  repeat (apply pda_only_bind; [apply ensureDir_pda_only | intros _ ?]).
  apply ensureDir_pda_only.
Qed.

Lemma setup_sweep_pda_only (userList : list User) (w : world) :
  pda_only w (setup_sweep E userList w).2.
Proof.
  unfold setup_sweep. apply pda_only_bind.
  - unfold pda_only. open_calls.
    crunch; (split; [done|]); solve_suffix.
  - intros names w1. apply pda_only_for_of. intros n w2.
    destruct (List.find _ userList); [apply pda_only_refl|].
    cbv zeta. unfold pda_only. open_calls.
    crunch; (split; [done|]); solve_suffix.
Qed.

Lemma setup_load_loaded (w w1 : world) (userList : list User) :
  setup_load E w = (Ok userList, w1) →
  is_Some (rootArchive w1) ∧ userList = users_list E.
Proof.
  unfold setup_load, external, logger_info. unfold_m.
  crunch; intros; crunch; try discriminate; eauto.
Qed.

End Traces.

(** C3, as the code has it.  Once the profile, the root archive and the
    users are loaded, [setup] completes whatever fails, and the calls of
    [ensureMount] it makes are exactly these, in the order of the user
    list: for each user first [ensureMount(DEFAULT_USER, url)] if the user
    is flagged default (temporary or not), then
    [ensureMount(USER(label), url)] if the user is not temporary.  So the
    user's own path is asked for iff the user is not temporary, and the
    alias iff the user is flagged default. *)
Theorem setup_mount_calls (E : Env) (w w1 : world) (userList : list User) :
  setup_load E w = (Ok userList, w1) →
  ∃ w' suffix, setup E w = (Ok tt, w') ∧
    trace w' = trace w1 ++ suffix ∧
    ensureMount_calls suffix = wanted_mounts (PATHS E) userList ∧
    ∀ p u, (p, u) ∈ ensureMount_calls suffix ↔
      ∃ user, user ∈ userList ∧ u = url user ∧
        (isDefault user = true ∧ p = DEFAULT_USER (PATHS E) ∨
         isTemporary user = false ∧ p = USER (PATHS E) (label user)).
Proof.
  intros Hload.
  destruct (setup_load_loaded E w w1 userList Hload) as [Ha1 _].
  assert (∃ w' suffix, setup E w = (Ok tt, w') ∧
            trace w' = trace w1 ++ suffix ∧
            ensureMount_calls suffix = wanted_mounts (PATHS E) userList)
    as (w' & suffix & Hrun & Ht & Hc).
  { unfold setup. rewrite bind_run, Hload.
    rewrite bind_run. unfold gets at 1. rewrite bind_run.
    unfold logger_info, modify. set (w2 := add_log _ w1).
    unfold setup_enforce. rewrite try_catch_run, bind_run.
    pose proof (setup_dirs_pda_only E w2) as [Ha3 (d & Ht3 & Hd)].
    destruct (setup_dirs E w2) as [[[]|e] w3] eqn:Hdirs.
    2:{ destruct (setup_dirs_any E w2) as (? & ? & _). congruence. }
    cbn [snd] in Ha3, Ht3. rewrite bind_run.
    destruct (setup_mounts_any E userList w3) as (w4 & s & -> & Ha4 & Ht4 & Hs & Hc).
    { by rewrite Ha3. }
    pose proof (setup_sweep_pda_only E userList w4) as [Ha5 (r & Ht5 & Hr)].
    assert (ensureMount_calls (d ++ s ++ r) = wanted_mounts (PATHS E) userList) as Hall.
    { rewrite ensureMount_calls_app.
      - rewrite ensureMount_calls_app by by apply pda_ops_head.
        by rewrite (ensureMount_calls_pda d Hd), (ensureMount_calls_pda r Hr),
             Hc, app_nil_r.
      - destruct Hs as [->|(p & rest & ->)]; [by apply pda_ops_head | done]. }
    assert (trace (setup_sweep E userList w4).2 = trace w1 ++ d ++ s ++ r) as Hall'.
    { by rewrite Ht5, Ht4, Ht3, <- !(assoc_L (++)). }
    destruct (setup_sweep E userList w4) as [[[]|e] w5]; cbn [snd] in Hall';
      unfold console_error, logger_error; unfold_m; eauto. }
  exists w', suffix. repeat split; try done.
  - rewrite Hc. unfold wanted_mounts.
    rewrite list_elem_of_In, in_flat_map.
    intros (user & Hin%list_elem_of_In & Hpu%list_elem_of_In).
    exists user. split; [done|].
    apply elem_of_app in Hpu as [Hpu|Hpu].
    + destruct (isDefault user); [|by apply elem_of_nil in Hpu].
      apply list_elem_of_singleton in Hpu. injection Hpu as -> ->. eauto.
    + destruct (isTemporary user); [by apply elem_of_nil in Hpu|].
      apply list_elem_of_singleton in Hpu. injection Hpu as -> ->. eauto.
  - intros (user & Hin & -> & Hcase). rewrite Hc. unfold wanted_mounts.
    rewrite list_elem_of_In, in_flat_map. exists user.
    split; [by apply list_elem_of_In|]. apply list_elem_of_In, elem_of_app.
    destruct Hcase as [[-> ->]|[-> ->]]; [left|right]; by apply list_elem_of_singleton.
Qed.

Lemma setup_mount_calls_witness :
  let alice := mkUser "alice" "dat://aaaa" true false in
  let guest := mkUser "guest" "dat://9999" false true in
  let E := sample_env [alice; guest] [] in
  let w := at_start ∅ (Some (mkProfile (Some "dat://root"))) in
  ∃ w' suffix, setup E w = (Ok tt, w') ∧
    trace w' = [TrashSetup; DbGet; GetOrLoadArchive "dat://root"; UsersSetup] ++ suffix ∧
    ensureMount_calls suffix
    = [("/public", "dat://aaaa"); ("/users/alice", "dat://aaaa")].
Proof.
  intros alice guest E w.
  destruct (setup_mount_calls E w (setup_load E w).2 [alice; guest])
    as (w' & suffix & Hrun & Ht & Hc & _); [reflexivity|].
  exists w', suffix. split; [done|]. split; [exact Ht | exact Hc].
Defined.

(** C3 fails as stated: for a temporary user flagged default, [setup]
    does call [ensureMount], on the alias, and the alias gets mounted. *)
Lemma setup_mounts_alias_of_temporary :
  let guest := mkUser "guest" "dat://9999" true true in
  let E := sample_env [guest] [] in
  let w := at_start ∅ (Some (mkProfile (Some "dat://root"))) in
  isTemporary guest = true ∧
  (setup E w).1 = Ok tt ∧
  ensureMount_calls (trace (setup E w).2) = [("/public", "dat://9999")] ∧
  fs (setup E w).2 !! "/public" = Some (Mount "9999").
Proof. vm_compute. done. Qed.

(** * Further properties *)

(** ** The prober *)

(** X1.  [stat] never throws and changes nothing but the trace, by one
    probe at most.  It answers with a stat only for a node that is there,
    through a loaded archive and a call that went through; it answers
    [null] when there is no node, and also when the archive is not loaded
    or the call rejects. *)
Theorem stat_never_fails (E : Env) (p : string) (w : world) :
  ∃ r w', stat E p w = (Ok r, w') ∧
    (w' = w ∨ w' = add_trace (PdaStat p) w) ∧
    (∀ st, r = Some st →
       ∃ n, fs w !! p = Some n ∧ st = stat_of n ∧
            is_Some (rootArchive w) ∧ length (trace w) ∉ faults E) ∧
    (r = None →
       fs w !! p = None ∨ rootArchive w = None ∨ length (trace w) ∈ faults E).
Proof.
  open_calls. crunch; eexists _, _; (split; [reflexivity|]).
  all: split; [by eauto|]; split; [intros st Hst | intros Hr]; try discriminate.
  all: try (apply bool_decide_eq_true in Heqb).
  all: try (apply bool_decide_eq_false in Heqb).
  all: eauto.
  injection Hst as <-. eauto 6.
Qed.

(** ** Directories and mounts, one path at a time *)

(** X2.  With no external call rejecting, [ensureDir(p)] makes the
    directory when nothing is at [p] (a probe, then a mkdir), leaves the
    archive alone when something is; and a second call right after only
    probes: no second mkdir, and the archive stays as the first call left
    it. *)
Theorem ensureDir_creates_once (E : Env) (w : world) (p a : string) :
  faults E = [] →
  rootArchive w = Some a →
  ∃ w1 w2,
    ensureDir E p w = (Ok tt, w1) ∧
    ensureDir E p w1 = (Ok tt, w2) ∧
    (fs w !! p = None →
       fs w1 = <[p := Dir]> (fs w) ∧
       trace w1 = trace w ++ [PdaStat p; PdaMkdir p]) ∧
    (is_Some (fs w !! p) → fs w1 = fs w ∧ trace w1 = trace w ++ [PdaStat p]) ∧
    fs w2 = fs w1 ∧
    trace w2 = trace w1 ++ [PdaStat p].
Proof.
  intros Hq Ha.
  assert (∀ w0, rootArchive w0 = Some a → is_Some (fs w0 !! p) →
            ∃ w', ensureDir E p w0 = (Ok tt, w') ∧ rootArchive w' = Some a ∧
                  fs w' = fs w0 ∧ trace w' = trace w0 ++ [PdaStat p]) as Hthere.
  { intros w0 Ha0 [n Hn]. open_calls.
    crunch; eexists; (split; [reflexivity|]); by cbn. }
  destruct (fs w !! p) as [n|] eqn:Hp.
  - destruct (Hthere w Ha) as (w1 & Hr1 & Ha1 & Hfs1 & Ht1); [by rewrite Hp|].
    destruct (Hthere w1 Ha1) as (w2 & Hr2 & _ & Hfs2 & Ht2).
    { rewrite Hfs1, Hp. eauto. }
    exists w1, w2. repeat split; try done.
  - assert (∃ w1, ensureDir E p w = (Ok tt, w1) ∧ rootArchive w1 = Some a ∧
              fs w1 = <[p := Dir]> (fs w) ∧
              trace w1 = trace w ++ [PdaStat p; PdaMkdir p])
      as (w1 & Hr1 & Ha1 & Hfs1 & Ht1).
    { open_calls. crunch. eexists; (split; [reflexivity|]); cbn.
      by rewrite <- (assoc_L (++)). }
    destruct (Hthere w1 Ha1) as (w2 & Hr2 & _ & Hfs2 & Ht2).
    { rewrite Hfs1, lookup_insert_eq. eauto. }
    exists w1, w2. repeat split; done.
Qed.

Lemma ensureDir_creates_once_witness :
  ∃ w1 w2,
    ensureDir (sample_env [] []) "/library" (loaded ∅) = (Ok tt, w1) ∧
    ensureDir (sample_env [] []) "/library" w1 = (Ok tt, w2) ∧
    fs w1 !! "/library" = Some Dir ∧ fs w2 = fs w1.
Proof.
  destruct (ensureDir_creates_once (sample_env [] []) (loaded ∅) "/library" "dat://root")
    as (w1 & w2 & Hr1 & Hr2 & Hnew & _ & Hfs2 & _); [reflexivity | reflexivity |].
  exists w1, w2. split; [done|]. split; [done|]. split; [|done].
  destruct Hnew as [-> _]; reflexivity.
Defined.

Section MountCalls.

Variable E : Env.
Implicit Types (w : world) (p u : string).

(** When there is nothing to do, [ensureMount] probes, resolves, and
    stops there. *)
Lemma ensureMount_settled p u w a :
  faults E = [] → rootArchive w = Some a →
  mount_settled (url_key E u) (fs w !! p) = true →
  ∃ w', ensureMount E p u w = (Ok tt, w') ∧
    rootArchive w' = Some a ∧ fs w' = fs w ∧
    trace w' = trace w ++ [PdaStat p; FromURLToKey u].
Proof.
  intros Hq Ha Hset. unfold mount_settled in Hset. open_calls.
  crunch; try discriminate;
    try match goal with
        | H : String.eqb ?x ?y = true, H' : negb (String.eqb ?x ?y) = true |- _ =>
            rewrite H in H'; discriminate
        end;
    eexists; (split; [reflexivity|]); cbn;
    by rewrite <- ?(assoc_L (++)).
Qed.

Lemma mount_fs_settled p key (m : gmap string node) :
  mount_settled key (mount_fs p key m !! p) = true.
Proof.
  unfold mount_fs, mount_settled.
  destruct key as [k|]; [|by destruct (m !! p) as [[]|]].
  destruct (m !! p) as [[| |k0]|] eqn:Hp; rewrite ?Hp; try done.
  - destruct (String.eqb k0 k) eqn:Hk; [by rewrite Hp|].
    by rewrite lookup_insert_eq, String.eqb_refl.
  - by rewrite lookup_insert_eq, String.eqb_refl.
Qed.

End MountCalls.

(** X3.  With no external call rejecting, [ensureMount(p, url)] called
    twice in a row does the work once: whatever was at [p], the second
    call only probes and resolves (no mount, no unmount) and leaves the
    archive as the first call left it. *)
Theorem ensureMount_idempotent (E : Env) (w : world) (p u a : string) :
  faults E = [] →
  rootArchive w = Some a →
  ∃ w1 w2,
    ensureMount E p u w = (Ok tt, w1) ∧
    ensureMount E p u w1 = (Ok tt, w2) ∧
    fs w2 = fs w1 ∧
    trace w2 = trace w1 ++ [PdaStat p; FromURLToKey u].
Proof.
  intros Hq Ha.
  destruct (ensureMount_quiet E p u w a Hq Ha) as (w1 & Hr1 & Ha1 & Hfs1).
  destruct (ensureMount_settled E p u w1 a Hq Ha1) as (w2 & Hr2 & _ & Hfs2 & Ht2).
  { rewrite Hfs1. apply mount_fs_settled. }
  by exists w1, w2.
Qed.

Lemma ensureMount_idempotent_witness :
  ∃ w1 w2,
    ensureMount (sample_env [] []) "/users/alice" "dat://aaaa" (loaded ∅) = (Ok tt, w1) ∧
    ensureMount (sample_env [] []) "/users/alice" "dat://aaaa" w1 = (Ok tt, w2) ∧
    fs w2 = fs w1.
Proof.
  destruct (ensureMount_idempotent (sample_env [] []) (loaded ∅)
              "/users/alice" "dat://aaaa" "dat://root")
    as (w1 & w2 & Hr1 & Hr2 & Hfs & _); [reflexivity | reflexivity |].
  by exists w1, w2.
Defined.

Lemma ensureMount_attach_quiet (E : Env) (w : world) (p u a k : string) :
  faults E = [] →
  rootArchive w = Some a →
  fs w !! p = None →
  url_key E u = Some k →
  ∃ w', ensureMount E p u w = (Ok tt, w') ∧
    fs w' = <[p := Mount k]> (fs w) ∧
    trace w' = trace w ++ [PdaStat p; FromURLToKey u; PdaMount p k] ∧
    log w' = log w ++ [mkDiag LInfo ("Adding mount " +:+ p) p].
Proof.
  intros Hq Ha Hp Hk. open_calls.
  crunch. eexists; (split; [reflexivity|]); cbn.
  by rewrite <- !(assoc_L (++)).
Qed.

(** X4.  With no external call rejecting, [ensureMount(p, url)] on a path
    with no node probes, resolves the url and mounts the resolved key at
    [p], with one line of log; nothing else changes. *)
Theorem ensureMount_attaches (E : Env) (w : world) (p u a k : string) :
  faults E = [] →
  rootArchive w = Some a →
  fs w !! p = None →
  url_key E u = Some k →
  ∃ w', ensureMount E p u w = (Ok tt, w') ∧
    fs w' = <[p := Mount k]> (fs w) ∧
    (∀ q, q ≠ p → fs w' !! q = fs w !! q) ∧
    trace w' = trace w ++ [PdaStat p; FromURLToKey u; PdaMount p k] ∧
    log w' = log w ++ [mkDiag LInfo ("Adding mount " +:+ p) p].
Proof.
  intros Hq Ha Hp Hk.
  destruct (ensureMount_attach_quiet E w p u a k Hq Ha Hp Hk)
    as (w' & Hr & Hfs & Ht & Hl).
  exists w'. repeat split; try done.
  intros q Hne. by rewrite Hfs, lookup_insert_ne.
Qed.

Lemma ensureMount_attaches_witness :
  ∃ w', ensureMount (sample_env [] []) "/users/alice" "dat://aaaa" (loaded ∅) = (Ok tt, w') ∧
    fs w' = {["/users/alice" := Mount "aaaa"]}.
Proof.
  destruct (ensureMount_attaches (sample_env [] []) (loaded ∅)
              "/users/alice" "dat://aaaa" "dat://root" "aaaa")
    as (w' & Hr & Hfs & _); [reflexivity..|].
  exists w'. split; [done|]. rewrite Hfs. reflexivity.
Defined.

(** X5.  A url that does not resolve mounts nothing: whatever the world
    and whatever else fails, [ensureMount(p, url)] completes, leaves the
    archive as it was, issues no mkdir, mount or unmount, and its last
    word in the log is the error about [p]. *)
Theorem ensureMount_unresolved (E : Env) (w : world) (p u : string) :
  url_key E u = None →
  ∃ w' t, ensureMount E p u w = (Ok tt, w') ∧
    fs w' = fs w ∧
    trace w' = trace w ++ t ++ [FromURLToKey u] ∧
    (t = [] ∨ t = [PdaStat p]) ∧
    log w' = log w ++ [mkDiag LError "Filesystem failed to mount archive" p].
Proof.
  intros Hk. open_calls.
  crunch; eexists _, _; (split; [reflexivity|]); cbn.
  all: first
    [ by (split; [done|]; split; [|split; [by left|done]])
    | by (split; [done|]; split; [by rewrite <- (assoc_L (++))|split; [by right|done]]) ].
Qed.

Lemma ensureMount_unresolved_witness :
  ∃ w', ensureMount (sample_env [] []) "/users/alice" "https://example.com" (loaded ∅)
        = (Ok tt, w') ∧ fs w' = ∅.
Proof.
  destruct (ensureMount_unresolved (sample_env [] []) (loaded ∅)
              "/users/alice" "https://example.com")
    as (w' & t & Hr & Hfs & _); [reflexivity|].
  by exists w'.
Defined.

(** X6.  A reassignment is an unmount followed by a mount, and the two
    are not undone together: when the probe, the resolution and the
    unmount go through and the mount rejects, [ensureMount] still
    completes, the path is left with no node at all (bound neither to the
    old key nor to the new one), and the error is logged. *)
Theorem ensureMount_failed_remount (E : Env) (w : world) (p u a A B : string) :
  rootArchive w = Some a →
  fs w !! p = Some (Mount A) →
  url_key E u = Some B →
  A ≠ B →
  length (trace w) ∉ faults E →
  S (length (trace w)) ∉ faults E →
  S (S (length (trace w))) ∉ faults E →
  S (S (S (length (trace w)))) ∈ faults E →
  ∃ w', ensureMount E p u w = (Ok tt, w') ∧
    fs w' = delete p (fs w) ∧
    trace w' = trace w ++ [PdaStat p; FromURLToKey u; PdaUnmount p; PdaMount p B] ∧
    ∃ older, log w' = older ++ [mkDiag LError "Filesystem failed to mount archive" p].
Proof.
  intros Ha Hp Hk HAB H0 H1 H2 H3.
  apply String.eqb_neq in HAB.
  assert (bool_decide (length (trace w ++ [PdaStat p]) ∈ faults E) = false) as T1.
  { apply bool_decide_eq_false_2. by rewrite length_app, Nat.add_1_r. }
  assert (bool_decide (length ((trace w ++ [PdaStat p]) ++ [FromURLToKey u])
                       ∈ faults E) = false) as T2.
  { apply bool_decide_eq_false_2. by rewrite !length_app, !Nat.add_1_r. }
  assert (bool_decide (length (((trace w ++ [PdaStat p]) ++ [FromURLToKey u])
                               ++ [PdaUnmount p]) ∈ faults E) = true) as T3.
  { apply bool_decide_eq_true_2. by rewrite !length_app, !Nat.add_1_r. }
  open_calls. crunch.
  eexists. split; [reflexivity|]. cbn.
  split; [done|]. split; [by rewrite <- !(assoc_L (++))|]. eauto.
Qed.

Lemma ensureMount_failed_remount_witness :
  ∃ w', ensureMount (sample_env [] [3]) "/users/alice" "dat://bbbb"
          (loaded {["/users/alice" := Mount "aaaa"]}) = (Ok tt, w') ∧
    fs w' !! "/users/alice" = None.
Proof.
  destruct (ensureMount_failed_remount (sample_env [] [3])
              (loaded {["/users/alice" := Mount "aaaa"]})
              "/users/alice" "dat://bbbb" "dat://root" "aaaa" "bbbb")
    as (w' & Hr & Hfs & _);
    [reflexivity | reflexivity | reflexivity | discriminate
    | by intros ?%list_elem_of_singleton | by intros ?%list_elem_of_singleton
    | by intros ?%list_elem_of_singleton | by apply list_elem_of_singleton |].
  exists w'. split; [done|]. rewrite Hfs. apply lookup_delete_eq.
Defined.

(** ** Adding and removing a user *)

Section UserCalls.

Variable E : Env.
Implicit Types (w : world) (p u : string) (user : User).

Lemma ensureUnmount_quiet p w a :
  faults E = [] → rootArchive w = Some a →
  ∃ w', ensureUnmount E p w = (Ok tt, w') ∧
    rootArchive w' = Some a ∧ fs w' = unmount_fs p (fs w) ∧
    trace w' = trace w ++
      match fs w !! p with
      | Some (Mount _) => [PdaStat p; PdaUnmount p]
      | _ => [PdaStat p]
      end.
Proof.
  intros Hq Ha. unfold unmount_fs. open_calls.
  crunch; eexists; (split; [reflexivity|]); cbn;
    by rewrite <- ?(assoc_L (++)).
Qed.

Lemma addUser_quiet user w a :
  faults E = [] → rootArchive w = Some a →
  ∃ w', addUser E user w = (Ok tt, w') ∧
    rootArchive w' = Some a ∧
    fs w' =
      let m1 := mount_fs (USER (PATHS E) (label user)) (url_key E (url user)) (fs w) in
      if isDefault user
      then mount_fs (DEFAULT_USER (PATHS E)) (url_key E (url user)) m1
      else m1.
Proof.
  intros Hq Ha. unfold addUser. rewrite bind_run.
  destruct (ensureMount_quiet E (USER (PATHS E) (label user)) (url user) w a Hq Ha)
    as (w1 & -> & Ha1 & Hfs1).
  cbv zeta. rewrite <- Hfs1.
  destruct (isDefault user); [by apply ensureMount_quiet | by exists w1].
Qed.

Lemma ensureMount_unloaded p u w :
  rootArchive w = None →
  ∃ w', ensureMount E p u w = (Ok tt, w') ∧
    rootArchive w' = None ∧ fs w' = fs w ∧
    trace w' = trace w ++ [FromURLToKey u].
Proof.
  intros Ha. open_calls. crunch; eexists; (split; [reflexivity|]); by cbn.
Qed.

End UserCalls.

(** X7.  With no external call rejecting, [removeUser(user)] takes the
    mount at the user's path away (a probe, then an unmount); when the
    path holds no mount -- nothing, a file, a directory -- it only probes
    and the archive and the log stay as they were. *)
Theorem removeUser_detaches (E : Env) (w : world) (user : User) (a : string) :
  faults E = [] →
  rootArchive w = Some a →
  ∃ w', removeUser E user w = (Ok tt, w') ∧
    (∀ k, fs w !! USER (PATHS E) (label user) = Some (Mount k) →
       fs w' = delete (USER (PATHS E) (label user)) (fs w) ∧
       trace w' = trace w ++ [PdaStat (USER (PATHS E) (label user));
                              PdaUnmount (USER (PATHS E) (label user))]) ∧
    ((∀ k, fs w !! USER (PATHS E) (label user) ≠ Some (Mount k)) →
       fs w' = fs w ∧
       trace w' = trace w ++ [PdaStat (USER (PATHS E) (label user))]).
Proof.
  intros Hq Ha. unfold removeUser.
  destruct (ensureUnmount_quiet E (USER (PATHS E) (label user)) w a Hq Ha)
    as (w' & Hr & _ & Hfs & Ht).
  exists w'. split; [done|]. unfold unmount_fs in Hfs. split.
  - intros k Hk. by rewrite Hk in Hfs, Ht.
  - intros Hnot. destruct (fs w !! _) as [[| |k]|]; try done.
    by destruct (Hnot k).
Qed.

Lemma removeUser_detaches_witness :
  let bob := mkUser "bob" "dat://bbbb" false false in
  ∃ w', removeUser (sample_env [] []) bob (loaded {["/users/bob" := Mount "bbbb"]})
        = (Ok tt, w') ∧ fs w' !! "/users/bob" = None.
Proof.
  intros bob.
  destruct (removeUser_detaches (sample_env [] [])
              (loaded {["/users/bob" := Mount "bbbb"]}) bob "dat://root")
    as (w' & Hr & Hmount & _); [reflexivity | reflexivity |].
  exists w'. split; [done|].
  destruct (Hmount "bbbb") as [-> _]; [reflexivity|]. apply lookup_delete_eq.
Defined.

(** X8.  With no external call rejecting, [addUser(user)] mounts the
    user's key at the user's own path whenever the url resolves and the
    path is free or already a mount -- for a temporary user too, which
    [setup] would pass over -- and at the alias as well when the user is
    flagged default; a user not flagged default leaves the alias alone,
    and no other path changes. *)
Theorem addUser_mounts (E : Env) (w : world) (user : User) (a k : string) :
  faults E = [] →
  rootArchive w = Some a →
  url_key E (url user) = Some k →
  DEFAULT_USER (PATHS E) ≠ USER (PATHS E) (label user) →
  free_or_mount (fs w !! USER (PATHS E) (label user)) →
  ∃ w', addUser E user w = (Ok tt, w') ∧
    fs w' !! USER (PATHS E) (label user) = Some (Mount k) ∧
    (isDefault user = true →
     free_or_mount (fs w !! DEFAULT_USER (PATHS E)) →
     fs w' !! DEFAULT_USER (PATHS E) = Some (Mount k)) ∧
    (isDefault user = false →
     fs w' !! DEFAULT_USER (PATHS E) = fs w !! DEFAULT_USER (PATHS E)) ∧
    (∀ q, q ≠ USER (PATHS E) (label user) → q ≠ DEFAULT_USER (PATHS E) →
          fs w' !! q = fs w !! q).
Proof.
  intros Hq Ha Hk Hne Hfree.
  destruct (addUser_quiet E user w a Hq Ha) as (w' & Hr & _ & Hfs).
  cbv zeta in Hfs. rewrite Hk in Hfs.
  exists w'. split; [done|]. rewrite Hfs.
  destruct (isDefault user); repeat split; try done.
  - rewrite mount_fs_other by done. by apply mount_fs_set.
  - intros _ Hd. apply mount_fs_set. by rewrite mount_fs_other.
  - intros q Hq1 Hq2. by rewrite !mount_fs_other.
  - by apply mount_fs_set.
  - intros _. by rewrite mount_fs_other.
  - intros q Hq1 Hq2. by rewrite mount_fs_other.
Qed.

Lemma addUser_mounts_witness :
  let guest := mkUser "guest" "dat://9999" true true in
  ∃ w', addUser (sample_env [] []) guest (loaded ∅) = (Ok tt, w') ∧
    fs w' !! "/users/guest" = Some (Mount "9999") ∧
    fs w' !! "/public" = Some (Mount "9999").
Proof.
  intros guest.
  destruct (addUser_mounts (sample_env [] []) (loaded ∅) guest "dat://root" "9999")
    as (w' & Hr & Hown & Halias & _);
    [reflexivity | reflexivity | reflexivity | discriminate | by left |].
  exists w'. split; [done|]. split; [exact Hown|].
  apply Halias; [reflexivity | by left].
Defined.

(** X9.  Adding a user and removing the user again is a round trip: with
    no external call rejecting, for a user not flagged default whose path
    holds nothing, [addUser] followed by [removeUser] leaves the archive
    exactly as it was, whether the url resolves or not. *)
Theorem addUser_removeUser (E : Env) (w : world) (user : User) (a : string) :
  faults E = [] →
  rootArchive w = Some a →
  isDefault user = false →
  fs w !! USER (PATHS E) (label user) = None →
  ∃ w1 w2,
    addUser E user w = (Ok tt, w1) ∧
    removeUser E user w1 = (Ok tt, w2) ∧
    fs w2 = fs w.
Proof.
  intros Hq Ha Hd Hp.
  destruct (addUser_quiet E user w a Hq Ha) as (w1 & Hr1 & Ha1 & Hfs1).
  cbv zeta in Hfs1. rewrite Hd in Hfs1.
  destruct (ensureUnmount_quiet E (USER (PATHS E) (label user)) w1 a Hq Ha1)
    as (w2 & Hr2 & _ & Hfs2 & _).
  exists w1, w2. split; [done|]. split; [done|].
  rewrite Hfs2, Hfs1. unfold unmount_fs, mount_fs. rewrite Hp.
  destruct (url_key E (url user)) as [k|].
  - rewrite lookup_insert_eq. by apply delete_insert_id.
  - by rewrite Hp.
Qed.

Lemma addUser_removeUser_witness :
  let bob := mkUser "bob" "dat://bbbb" false false in
  let m : gmap string node := {["/users" := Dir]} in
  ∃ w1 w2,
    addUser (sample_env [] []) bob (loaded m) = (Ok tt, w1) ∧
    removeUser (sample_env [] []) bob w1 = (Ok tt, w2) ∧
    fs w2 = m.
Proof.
  intros bob m.
  destruct (addUser_removeUser (sample_env [] []) (loaded m) bob "dat://root")
    as (w1 & w2 & Hr1 & Hr2 & Hfs); [reflexivity..|].
  by exists w1, w2.
Defined.

(** ** More on name allocation *)

Section AllocationMore.

Variable E : Env.
Variables dir base : string.

Let probing : N → M (option string) :=
  λ i, let name := candidate base i in
       let! st := stat E (joinPath dir name) in
       match st with
       | None => ret (Some name)
       | Some _ => ret None
       end.

(** The loop ends in one of two ways: at the first free name, or past
    the last round with every name taken. *)
Lemma rounds_sound rounds i w a :
  faults E = [] → rootArchive w = Some a →
  ∃ w', fs w' = fs w ∧ log w' = log w ∧ rootArchive w' = Some a ∧
    ((∃ k, (i ≤ k < i + N.of_nat rounds)%N ∧
        (∀ j, (i ≤ j < k)%N → is_Some (fs w !! joinPath dir (candidate base j))) ∧
        fs w !! joinPath dir (candidate base k) = None ∧
        for_rounds rounds i probing w = (Ok (Some (candidate base k)), w')) ∨
     ((∀ j, (i ≤ j < i + N.of_nat rounds)%N →
         is_Some (fs w !! joinPath dir (candidate base j))) ∧
      for_rounds rounds i probing w = (Ok None, w'))).
Proof.
  intros Hq. revert i w. induction rounds as [|rounds IH]; intros i w Ha.
  - exists w. repeat split; try done. right. split; [intros j Hj; lia | done].
  - cbn [for_rounds]. rewrite bind_run.
    pose proof (probing_quiet E dir base i w a Hq Ha) as Hp.
    cbv zeta in Hp. fold probing in Hp. rewrite Hp. clear Hp.
    destruct (fs w !! joinPath dir (candidate base i)) as [n|] eqn:Hi.
    + destruct (IH (i + 1)%N (add_trace (PdaStat (joinPath dir (candidate base i))) w) Ha)
        as (w' & Hfs & Hlog & Ha' & Hcase).
      exists w'. split; [done|]. split; [done|]. split; [done|].
      destruct Hcase as [(k & Hk & Hocc & Hfree & Hrun)|[Hocc Hrun]]; [left|right].
      * exists k. split; [lia|]. split; [|by split].
        intros j Hj. destruct (decide (j = i)) as [->|Hne]; [by rewrite Hi|].
        apply Hocc. lia.
      * split; [|done].
        intros j Hj. destruct (decide (j = i)) as [->|Hne]; [by rewrite Hi|].
        apply Hocc. lia.
    + exists (add_trace (PdaStat (joinPath dir (candidate base i))) w).
      split; [done|]. split; [done|]. split; [done|]. left. exists i.
      split; [lia|]. split; [intros j Hj; lia|]. by split.
Qed.

(** Whatever fails, the loop itself never throws. *)
Lemma rounds_never_throw rounds i w :
  ∃ r w', for_rounds rounds i probing w = (Ok r, w').
Proof.
  revert i w. induction rounds as [|rounds IH]; intros i w; [by eexists _, _|].
  cbn [for_rounds]. rewrite bind_run. unfold probing at 1. cbv zeta.
  rewrite bind_run.
  destruct (stat_any E (joinPath dir (candidate base i)) w) as (r & w1 & -> & _).
  destruct r as [st|]; [apply IH | by eexists _, _].
Qed.

(** A probe that does not come back counts as a free name. *)
Lemma rounds_failed_probe rounds i w :
  rootArchive w = None ∨ length (trace w) ∈ faults E →
  ∃ w', for_rounds (S rounds) i probing w = (Ok (Some (candidate base i)), w') ∧
        fs w' = fs w.
Proof.
  intros Hfail. cbn [for_rounds]. rewrite bind_run. unfold probing. cbv zeta.
  rewrite bind_run.
  assert (∃ w1, stat E (joinPath dir (candidate base i)) w = (Ok None, w1) ∧
                fs w1 = fs w) as (w1 & -> & Hfs).
  { open_calls. destruct Hfail as [Ha|Hin].
    - rewrite Ha. by eexists.
    - crunch; try (by eexists).
      all: apply bool_decide_eq_false in Heqb; done. }
  by exists w1.
Qed.

End AllocationMore.

(** X10.  With no external call rejecting, name allocation changes
    nothing and ends in one of two ways only.  Either it returns a name:
    then the name is one of the candidates below the ceiling, nothing
    sits at its path, and every earlier candidate is taken.  Or it throws
    its error: then every candidate below the ceiling is taken. *)
Theorem getAvailableName_sound (E : Env) (ceiling : N) (w : world) (dir title a : string) :
  faults E = [] →
  rootArchive w = Some a →
  ∃ w', fs w' = fs w ∧ log w' = log w ∧
    ((∃ k, (1 ≤ k < ceiling)%N ∧
        (∀ j, (1 ≤ j < k)%N →
           is_Some (fs w !! joinPath dir (candidate (basename_of E title) j))) ∧
        fs w !! joinPath dir (candidate (basename_of E title) k) = None ∧
        getAvailableNameUpTo E ceiling dir title w
        = (Ok (candidate (basename_of E title) k), w')) ∨
     ((∀ j, (1 ≤ j < ceiling)%N →
         is_Some (fs w !! joinPath dir (candidate (basename_of E title) j))) ∧
      getAvailableNameUpTo E ceiling dir title w
      = (Throw (Error ("Unable to find an available name for " +:+ title)), w'))).
Proof.
  intros Hq Ha. unfold getAvailableNameUpTo. cbv zeta.
  destruct (rounds_sound E dir (basename_of E title) (N.to_nat (ceiling - 1)) 1 w a Hq Ha)
    as (w' & Hfs & Hlog & _ & Hcase).
  cbv zeta in Hcase.
  exists w'. split; [done|]. split; [done|].
  destruct Hcase as [(k & Hk & Hocc & Hfree & Hrun)|[Hocc Hrun]]; [left|right].
  - exists k. split; [lia|]. split; [done|]. split; [done|].
    rewrite bind_run, for_range_rounds, Hrun. done.
  - split; [intros j Hj; apply Hocc; lia|].
    rewrite bind_run, for_range_rounds, Hrun. done.
Qed.

Lemma getAvailableName_sound_witness :
  let w := loaded {["/library" := Dir; "/library/notes" := Mount "cccc"]} in
  ∃ w', fs w' = fs w ∧ log w' = log w ∧
    getAvailableName (sample_env [] []) "/library" "Notes" w = (Ok "notes-2", w').
Proof.
  intros w.
  destruct (getAvailableName_sound (sample_env [] []) 1000000000 w
              "/library" "Notes" "dat://root")
    as (w' & Hfs & Hlog & Hcase); [reflexivity | reflexivity |].
  exists w'. split; [done|]. split; [done|].
  destruct Hcase as [(k & Hk & Hocc & Hfree & Hrun)|[Hocc _]].
  - assert (k = 2%N) as ->; [|exact Hrun].
    destruct (decide (k = 1%N)) as [->|H1]; [discriminate Hfree|].
    destruct (decide (k = 2%N)) as [->|H2]; [done|].
    destruct (Hocc 2%N) as [n Hn]; [lia | discriminate Hn].
  - destruct (Hocc 2%N) as [n Hn]; [lia | discriminate Hn].
Defined.

(** X11.  A probe that fails counts as a free name: when the root archive
    is not loaded, or the first probe rejects, name allocation returns the
    bare slug at once -- whether or not something sits at its path. *)
Theorem getAvailableName_failed_probe (E : Env) (ceiling : N) (w : world)
    (dir title : string) :
  (1 < ceiling)%N →
  rootArchive w = None ∨ length (trace w) ∈ faults E →
  ∃ w', getAvailableNameUpTo E ceiling dir title w = (Ok (basename_of E title), w') ∧
        fs w' = fs w.
Proof.
  intros Hc Hfail. unfold getAvailableNameUpTo. cbv zeta.
  rewrite bind_run, for_range_rounds.
  destruct (N.to_nat (ceiling - 1)) as [|rounds] eqn:Hr; [lia|].
  destruct (rounds_failed_probe E dir (basename_of E title) rounds 1 w Hfail)
    as (w' & Hrun & Hfs).
  cbv zeta in Hrun. rewrite Hrun. by exists w'.
Qed.

Lemma getAvailableName_failed_probe_witness :
  let w := loaded {["/library" := Dir; "/library/notes" := Mount "cccc"]} in
  ∃ w', getAvailableName (sample_env [] [0]) "/library" "Notes" w = (Ok "notes", w').
Proof.
  intros w.
  destruct (getAvailableName_failed_probe (sample_env [] [0]) 1000000000 w
              "/library" "Notes")
    as (w' & Hrun & _); [reflexivity | right; by apply list_elem_of_singleton |].
  by exists w'.
Defined.

(** ** The library and the exported calls *)

(** X12.  With no external call rejecting and a url that resolves,
    [addToLibrary] either mounts the key at a library path where nothing
    was -- the path of the name just allocated -- and changes nothing
    else, so that no node that was there is touched; or, the names being
    used up, throws and changes nothing at all. *)
Theorem addToLibrary_adds (E : Env) (ceiling : N) (w : world) (u title a k : string) :
  faults E = [] →
  rootArchive w = Some a →
  url_key E u = Some k →
  ∃ w',
    ((∃ name,
        fs w !! joinPath (LIBRARY (PATHS E)) name = None ∧
        fs w' = <[joinPath (LIBRARY (PATHS E)) name := Mount k]> (fs w) ∧
        addToLibraryUpTo E ceiling u title w = (Ok JSUndefined, w')) ∨
     (fs w' = fs w ∧
      addToLibraryUpTo E ceiling u title w
      = (Throw (Error ("Unable to find an available name for " +:+ title)), w'))) ∧
    (∀ q, is_Some (fs w !! q) → fs w' !! q = fs w !! q).
Proof.
  intros Hq Ha Hk. unfold addToLibraryUpTo. rewrite bind_run.
  destruct (rounds_sound E (LIBRARY (PATHS E)) (basename_of E title)
              (N.to_nat (ceiling - 1)) 1 w a Hq Ha)
    as (w1 & Hfs1 & _ & Ha1 & Hcase).
  cbv zeta in Hcase. unfold getAvailableNameUpTo. cbv zeta.
  rewrite bind_run, for_range_rounds.
  destruct Hcase as [(i & _ & _ & Hfree & ->)|[_ ->]].
  - cbn [ret]. rewrite bind_run.
    destruct (ensureMount_attach_quiet E w1
                (joinPath (LIBRARY (PATHS E)) (candidate (basename_of E title) i))
                u a k Hq Ha1) as (w' & -> & Hfs' & _); [by rewrite Hfs1 | done |].
    exists w'. rewrite Hfs', Hfs1. split.
    + left. by exists (candidate (basename_of E title) i).
    + intros q [n Hn]. rewrite lookup_insert_ne; [done|]. intros <-. congruence.
  - exists w1. split; [right; by split | intros q _; by rewrite Hfs1].
Qed.

Lemma addToLibrary_adds_witness :
  let m : gmap string node := {["/library" := Dir; "/library/notes" := Mount "cccc"]} in
  ∃ w', addToLibrary (sample_env [] []) "dat://dddd" "Notes" (loaded m)
        = (Ok JSUndefined, w') ∧
    fs w' !! "/library/notes" = Some (Mount "cccc").
Proof.
  intros m.
  destruct (addToLibrary_adds (sample_env [] []) 1000000000 (loaded m)
              "dat://dddd" "Notes" "dat://root" "dddd")
    as (w' & Hcase & Hkept); [reflexivity..|].
  exists w'. split.
  - destruct Hcase as [(name & _ & _ & Hrun)|[_ Hrun]]; [exact Hrun|].
    vm_compute in Hrun. discriminate Hrun.
  - rewrite Hkept; [reflexivity | by eexists].
Defined.

(** X13.  The exported calls that change the archive keep their errors
    to themselves: whatever the world and whatever fails, [addUser] and
    [removeUser] complete, and [addToLibrary] either completes or throws
    the one error of name allocation. *)
Theorem mutators_contain_failures (E : Env) (ceiling : N) (w : world)
    (user : User) (u title : string) :
  (∃ w', addUser E user w = (Ok tt, w')) ∧
  (∃ w', removeUser E user w = (Ok tt, w')) ∧
  (∃ w', addToLibraryUpTo E ceiling u title w = (Ok JSUndefined, w') ∨
         addToLibraryUpTo E ceiling u title w
         = (Throw (Error ("Unable to find an available name for " +:+ title)), w')).
Proof.
  split; [|split].
  - unfold addUser. rewrite bind_run.
    destruct (ensureMount_any E (USER (PATHS E) (label user)) (url user) w)
      as (w1 & -> & _).
    destruct (isDefault user); [|by exists w1].
    destruct (ensureMount_any E (DEFAULT_USER (PATHS E)) (url user) w1)
      as (w2 & -> & _).
    by exists w2.
  - unfold removeUser.
    destruct (ensureUnmount_any E (USER (PATHS E) (label user)) w) as (w' & -> & _).
    by exists w'.
  - unfold addToLibraryUpTo, getAvailableNameUpTo. cbv zeta.
    rewrite !bind_run, for_range_rounds.
    destruct (rounds_never_throw E (LIBRARY (PATHS E)) (basename_of E title)
                (N.to_nat (ceiling - 1)) 1 w) as (r & w1 & Hrun).
    cbv zeta in Hrun. rewrite Hrun.
    destruct r as [name|]; [|exists w1; by right].
    cbn [ret]. rewrite bind_run.
    destruct (ensureMount_any E (joinPath (LIBRARY (PATHS E)) name) u w1)
      as (w2 & -> & _).
    exists w2. by left.
Qed.

(** X14.  Before [setup] has loaded the root archive the exported calls
    do nothing and say nothing to their caller: [addUser], [removeUser]
    and [addToLibrary] all complete, [addToLibrary] without having probed
    a single name, and the archive is as it was. *)
Theorem calls_before_setup (E : Env) (w : world) (user : User) (u title : string) :
  rootArchive w = None →
  (∃ w', addUser E user w = (Ok tt, w') ∧ fs w' = fs w) ∧
  (∃ w', removeUser E user w = (Ok tt, w') ∧ fs w' = fs w ∧ trace w' = trace w) ∧
  (∃ w', addToLibrary E u title w = (Ok JSUndefined, w') ∧ fs w' = fs w ∧
         trace w' = trace w ++ [FromURLToKey u]).
Proof.
  intros Ha. split; [|split].
  - unfold addUser. rewrite bind_run.
    destruct (ensureMount_unloaded E (USER (PATHS E) (label user)) (url user) w Ha)
      as (w1 & -> & Ha1 & Hfs1 & _).
    destruct (isDefault user); [|by exists w1].
    destruct (ensureMount_unloaded E (DEFAULT_USER (PATHS E)) (url user) w1 Ha1)
      as (w2 & -> & _ & Hfs2 & _).
    exists w2. split; [done | congruence].
  - unfold removeUser. open_calls. rewrite Ha. by eexists.
  - unfold addToLibrary, addToLibraryUpTo, getAvailableNameUpTo. cbv zeta.
    rewrite !bind_run, for_range_rounds.
    change (N.to_nat (1000000000 - 1)) with (N.to_nat 999999999).
    destruct (N.to_nat 999999999) as [|rounds] eqn:Hr; [lia|].
    cbn [for_rounds]. rewrite !bind_run.
    assert (stat E (joinPath (LIBRARY (PATHS E)) (candidate (basename_of E title) 1)) w
            = (Ok None, w)) as ->.
    { open_calls. by rewrite Ha. }
    cbn [ret]. rewrite bind_run.
    destruct (ensureMount_unloaded E
                (joinPath (LIBRARY (PATHS E)) (candidate (basename_of E title) 1)) u w Ha)
      as (w1 & -> & _ & Hfs1 & Ht1).
    by exists w1.
Qed.

Lemma calls_before_setup_witness :
  let m : gmap string node := {["/library" := Dir]} in
  ∃ w', addToLibrary (sample_env [] []) "dat://cccc" "Notes" (at_start m None)
        = (Ok JSUndefined, w') ∧ fs w' = m.
Proof.
  intros m.
  destruct (calls_before_setup (sample_env [] []) (at_start m None)
              (mkUser "bob" "dat://bbbb" false false) "dat://cccc" "Notes")
    as (_ & _ & w' & Hrun & Hfs & _); [reflexivity|].
  by exists w'.
Defined.

(** X15.  A failed probe can cost an entry of the library its place: when
    the first probe of name allocation rejects and the four calls after
    it go through, [addToLibrary] takes the bare slug although a mount
    sits at its path, and rebinds that mount to the new key. *)
Theorem addToLibrary_takes_over (E : Env) (ceiling : N) (w : world)
    (u title a A B : string) :
  (1 < ceiling)%N →
  rootArchive w = Some a →
  length (trace w) ∈ faults E →
  (∀ i, (1 ≤ i ≤ 4)%nat → (length (trace w) + i)%nat ∉ faults E) →
  fs w !! joinPath (LIBRARY (PATHS E)) (basename_of E title) = Some (Mount A) →
  url_key E u = Some B →
  A ≠ B →
  ∃ w', addToLibraryUpTo E ceiling u title w = (Ok JSUndefined, w') ∧
    fs w' = <[joinPath (LIBRARY (PATHS E)) (basename_of E title) := Mount B]> (fs w).
Proof.
  intros Hc Ha Hfault Hok Hp Hk HAB.
  apply String.eqb_neq in HAB.
  set (P := joinPath (LIBRARY (PATHS E)) (basename_of E title)) in *.
  unfold addToLibraryUpTo, getAvailableNameUpTo. cbv zeta.
  rewrite !bind_run, for_range_rounds.
  destruct (N.to_nat (ceiling - 1)) as [|rounds] eqn:Hr; [lia|].
  cbn [for_rounds]. rewrite !bind_run.
  change (candidate (basename_of E title) 1) with (basename_of E title). fold P.
  assert (stat E P w = (Ok None, add_trace (PdaStat P) w)) as ->.
  { open_calls. rewrite Ha. cbn -[elem_of].
    by rewrite (bool_decide_eq_true_2 _ Hfault). }
  cbn [ret]. rewrite bind_run.
  set (w1 := add_trace (PdaStat P) w).
  assert (bool_decide (length (trace w1) ∈ faults E) = false) as T1.
  { apply bool_decide_eq_false_2. subst w1. cbn. rewrite length_app. cbn.
    apply Hok. lia. }
  assert (bool_decide (length (trace w1 ++ [PdaStat P]) ∈ faults E) = false) as T2.
  { apply bool_decide_eq_false_2. subst w1. cbn. rewrite !length_app. cbn.
    rewrite <- Nat.add_assoc. apply Hok. cbn. lia. }
  assert (bool_decide (length ((trace w1 ++ [PdaStat P]) ++ [FromURLToKey u])
                       ∈ faults E) = false) as T3.
  { apply bool_decide_eq_false_2. subst w1. cbn. rewrite !length_app. cbn.
    rewrite <- !Nat.add_assoc. apply Hok. cbn. lia. }
  assert (bool_decide (length (((trace w1 ++ [PdaStat P]) ++ [FromURLToKey u])
                               ++ [PdaUnmount P]) ∈ faults E) = false) as T4.
  { apply bool_decide_eq_false_2. subst w1. cbn. rewrite !length_app. cbn.
    rewrite <- !Nat.add_assoc. apply Hok. cbn. lia. }
  assert (rootArchive w1 = Some a) as Ha1 by done.
  assert (fs w1 !! P = Some (Mount A)) as Hp1 by done.
  assert (fs w1 = fs w) as Hfs1 by done.
  clearbody w1. clear Hfault Hok Hr. fold P.
  assert (∃ w', ensureMount E P u w1 = (Ok tt, w') ∧
                fs w' = <[P := Mount B]> (fs w1)) as (w' & -> & Hfs').
  { open_calls. crunch. eexists. split; [reflexivity|]. cbn.
    by rewrite insert_delete_eq. }
  exists w'. split; [done|]. by rewrite Hfs', Hfs1.
Qed.

Lemma addToLibrary_takes_over_witness :
  let m : gmap string node := {["/library" := Dir; "/library/notes" := Mount "cccc"]} in
  ∃ w', addToLibrary (sample_env [] [0]) "dat://dddd" "Notes" (loaded m)
        = (Ok JSUndefined, w') ∧
    fs w' !! "/library/notes" = Some (Mount "dddd").
Proof.
  intros m.
  destruct (addToLibrary_takes_over (sample_env [] [0]) 1000000000 (loaded m)
              "dat://dddd" "Notes" "dat://root" "cccc" "dddd")
    as (w' & Hrun & Hfs);
    [reflexivity | reflexivity | by apply list_elem_of_singleton
    | intros i Hi ?%list_elem_of_singleton; cbn in *; lia
    | reflexivity | reflexivity | discriminate |].
  exists w'. split; [exact Hrun|]. rewrite Hfs. apply lookup_insert_eq.
Defined.

(** ** What stays out of reach *)

Lemma archive_only_refl (w : world) : archive_only w w.
Proof. repeat split. exists []. by rewrite app_nil_r. Qed.

Lemma archive_only_trans (w1 w2 w3 : world) :
  archive_only w1 w2 → archive_only w2 w3 → archive_only w1 w3.
Proof.
  intros [(Hd1 & Hb1 & Ha1) (r1 & Ht1 & Hr1)] [(Hd2 & Hb2 & Ha2) (r2 & Ht2 & Hr2)].
  split; [repeat split; congruence|]. exists (r1 ++ r2).
  rewrite Ht2, Ht1, <- (assoc_L (++)). split; [done|].
  rewrite forallb_app. by rewrite Hr1, Hr2.
Qed.

Lemma archive_only_bind {A B} (m : M A) (k : A → M B) (w : world) :
  archive_only w (m w).2 →
  (∀ a w1, archive_only w1 (k a w1).2) →
  archive_only w (bind m k w).2.
Proof.
  intros Hm Hk. rewrite bind_run.
  destruct (m w) as [[a|e] w1]; [|done].
  exact (archive_only_trans _ _ _ Hm (Hk a w1)).
Qed.

Lemma archive_only_for_of {A} (l : list A) (body : A → M unit) (w : world) :
  (∀ x w1, archive_only w1 (body x w1).2) →
  archive_only w (for_of l body w).2.
Proof.
  intros Hbody. revert w. induction l as [|x l IH]; intros w.
  - apply archive_only_refl.
  - cbn [for_of]. apply archive_only_bind; [apply Hbody | intros _ w1; apply IH].
Qed.

Ltac solve_archive_only :=
  unfold archive_only, globals_kept; open_calls;
  crunch; (split; [done|]); solve_suffix.

Section Reach.

Variable E : Env.

Lemma stat_archive_only (p : string) (w : world) :
  archive_only w (stat E p w).2.
Proof. solve_archive_only. Qed.

Lemma ensureDir_archive_only (p : string) (w : world) :
  archive_only w (ensureDir E p w).2.
Proof. solve_archive_only. Qed.

Lemma ensureMount_archive_only (p u : string) (w : world) :
  archive_only w (ensureMount E p u w).2.
Proof. solve_archive_only. Qed.

Lemma ensureUnmount_archive_only (p : string) (w : world) :
  archive_only w (ensureUnmount E p w).2.
Proof. solve_archive_only. Qed.

Lemma setup_enforce_archive_only (userList : list User) (w : world) :
  archive_only w (setup_enforce E userList w).2.
Proof.
  unfold setup_enforce. rewrite try_catch_run.
  assert (archive_only w
            ((setup_dirs E >> setup_mounts E userList >> setup_sweep E userList) w).2)
    as Hblock.
  { apply archive_only_bind.
    { unfold setup_dirs.
      repeat (apply archive_only_bind; [apply ensureDir_archive_only | intros _ ?]).
      apply ensureDir_archive_only. }
    intros _ w1. apply archive_only_bind.
    { unfold setup_mounts. apply archive_only_for_of. intros user w2.
      apply archive_only_bind.
      - destruct (isDefault user);
          [apply ensureMount_archive_only | apply archive_only_refl].
      - intros _ w3. destruct (negb (isTemporary user));
          [apply ensureMount_archive_only | apply archive_only_refl]. }
    intros _ w2. unfold setup_sweep. apply archive_only_bind.
    { solve_archive_only. }
    intros names w3. apply archive_only_for_of. intros n w4.
    destruct (List.find _ userList); [apply archive_only_refl|].
    cbv zeta. solve_archive_only. }
  destruct ((setup_dirs E >> setup_mounts E userList >> setup_sweep E userList) w)
    as [[[]|e] w1]; [done|].
  cbn [snd] in Hblock. apply (archive_only_trans _ _ _ Hblock).
  unfold console_error, logger_error. unfold_m. cbn.
  repeat split. exists []. by rewrite app_nil_r.
Qed.

Lemma getAvailableNameUpTo_archive_only (ceiling : N) (dir title : string) (w : world) :
  archive_only w (getAvailableNameUpTo E ceiling dir title w).2.
Proof.
  unfold getAvailableNameUpTo. cbv zeta. apply archive_only_bind.
  - rewrite for_range_rounds.
    set (rounds := N.to_nat (ceiling - 1)). clearbody rounds.
    generalize 1%N. revert w.
    induction rounds as [|rounds IH]; intros w i; [apply archive_only_refl|].
    cbn [for_rounds]. apply archive_only_bind.
    + apply archive_only_bind; [apply stat_archive_only|].
      intros [st|] w1; apply archive_only_refl.
    + intros [name|] w1; [apply archive_only_refl | apply IH].
  - intros [name|] w1; apply archive_only_refl.
Qed.

(** [setup] is its first part, one line of log, and the [try] block. *)
Lemma setup_run (w w1 : world) (userList : list User) :
  setup_load E w = (Ok userList, w1) →
  setup E w =
  setup_enforce E userList
    (add_log (mkDiag LInfo "Loading root archive"
                (default "" (browsingProfile w1 ≫= profile_url))) w1).
Proof. intros Hload. unfold setup. rewrite bind_run, Hload. reflexivity. Qed.

Lemma setup_run_throw (w w1 : world) (e : error) :
  setup_load E w = (Throw e, w1) → setup E w = (Throw e, w1).
Proof. intros Hload. unfold setup. rewrite bind_run, Hload. reflexivity. Qed.

(** The [try] block keeps its errors. *)
Lemma setup_enforce_ok (userList : list User) (w : world) :
  ∃ w', setup_enforce E userList w = (Ok tt, w').
Proof.
  unfold setup_enforce. rewrite try_catch_run.
  destruct ((setup_dirs E >> setup_mounts E userList >> setup_sweep E userList) w)
    as [[[]|e] w1]; by eexists.
Qed.

(** What the first part of [setup] leaves when it completes. *)
Lemma setup_load_ok (w w1 : world) (userList : list User) :
  setup_load E w = (Ok userList, w1) →
  ∃ root, rootArchive w1 = Some root ∧
    browsingProfile w1 = Some (mkProfile (Some root)) ∧
    db_profile w1 = Some (mkProfile (Some root)) ∧
    fs w1 = fs w.
Proof.
  unfold setup_load, external, logger_info. unfold_m.
  crunch; intros; crunch; try discriminate; eexists; repeat split.
  all: destruct p as [pu]; cbn in *; congruence.
Qed.

(** With a url on record the first part of [setup] makes none of the
    calls of the first run and leaves the row alone, whatever fails. *)
Lemma setup_load_recorded (w : world) (u : string) :
  db_profile w = Some (mkProfile (Some u)) → u ≠ "" →
  db_profile (setup_load E w).2 = db_profile w ∧
  ∃ rest, trace (setup_load E w).2 = trace w ++ rest ∧
          forallb (λ o, negb (is_first_run_op o)) rest = true.
Proof.
  intros Hdb Hu. destruct u as [|c r]; [done|].
  unfold setup_load, external, logger_info. unfold_m.
  crunch; (split; [done|]); solve_suffix.
Qed.

End Reach.

(** X16.  [addUser], [removeUser] and [addToLibrary] work on the archive
    and on nothing else: whatever the world and whatever fails, they
    leave the profile row and the two module variables as they were, and
    every call they make goes to the archive or to the resolver of urls
    (none to the profile database, the user list, the trash, or the
    creation and loading of archives). *)
Theorem mutators_archive_only (E : Env) (ceiling : N) (w : world)
    (user : User) (u title : string) :
  archive_only w (addUser E user w).2 ∧
  archive_only w (removeUser E user w).2 ∧
  archive_only w (addToLibraryUpTo E ceiling u title w).2.
Proof.
  split; [|split].
  - unfold addUser. apply archive_only_bind; [apply ensureMount_archive_only|].
    intros _ w1. destruct (isDefault user);
      [apply ensureMount_archive_only | apply archive_only_refl].
  - apply ensureUnmount_archive_only.
  - unfold addToLibraryUpTo.
    apply archive_only_bind; [apply getAvailableNameUpTo_archive_only|].
    intros name w1. apply archive_only_bind; [apply ensureMount_archive_only|].
    intros _ w2. apply archive_only_refl.
Qed.

(** X17.  Whenever [setup] completes, whatever failed on the way, the
    module knows its root: the loaded archive, the module's profile and
    the profile row carry one and the same url; [get] answers with that
    archive, and [isRootUrl] says yes to that url and no to any other. *)
Theorem setup_agrees_on_root (E : Env) (w w' : world) :
  setup E w = (Ok tt, w') →
  ∃ root,
    rootArchive w' = Some root ∧
    browsingProfile w' = Some (mkProfile (Some root)) ∧
    db_profile w' = Some (mkProfile (Some root)) ∧
    get w' = (Ok (Some root), w') ∧
    isRootUrl root w' = (Ok true, w') ∧
    (∀ u, u ≠ root → isRootUrl u w' = (Ok false, w')).
Proof.
  destruct (setup_load E w) as [[userList|e] w1] eqn:Hload;
    [|by rewrite (setup_run_throw E w w1 e Hload)].
  destruct (setup_load_ok E w w1 userList Hload) as (root & Ha1 & Hb1 & Hd1 & _).
  rewrite (setup_run E w w1 userList Hload). set (w2 := add_log _ w1).
  pose proof (setup_enforce_archive_only E userList w2) as [(Hd & Hb & Ha) _].
  intros Hrun. rewrite Hrun in Hd, Hb, Ha. cbn [snd] in Hd, Hb, Ha.
  assert (rootArchive w' = Some root) as Ha' by (rewrite Ha; exact Ha1).
  assert (browsingProfile w' = Some (mkProfile (Some root))) as Hb'
    by (rewrite Hb; exact Hb1).
  assert (db_profile w' = Some (mkProfile (Some root))) as Hd'
    by (rewrite Hd; exact Hd1).
  exists root. split; [done|]. split; [done|]. split; [done|].
  split; [|split].
  - unfold get, gets. by rewrite Ha'.
  - unfold isRootUrl, gets. rewrite bind_run, Hb'. cbn.
    by rewrite bool_decide_eq_true_2.
  - intros u Hu. unfold isRootUrl, gets. rewrite bind_run, Hb'. cbn.
    rewrite bool_decide_eq_false_2; [done | congruence].
Qed.

Lemma setup_agrees_on_root_witness :
  let E := sample_env [] [] in
  let w := at_start ∅ (Some (mkProfile None)) in
  (setup E w).1 = Ok tt ∧
  isRootUrl "dat://root" (setup E w).2 = (Ok true, (setup E w).2).
Proof.
  intros E w. split; [vm_compute; reflexivity|].
  destruct (setup_agrees_on_root E w (setup E w).2)
    as (root & Ha & _ & _ & _ & Hyes & _); [vm_compute; reflexivity|].
  assert (root = "dat://root") as <-; [|exact Hyes].
  vm_compute in Ha. by injection Ha.
Defined.

(** X18.  A root url on record is never replaced: when the profile row
    carries a url, [setup] -- however it ends and whatever fails -- leaves
    the row as it is, and creates no root archive and writes no url. *)
Theorem setup_keeps_recorded_root (E : Env) (w : world) (u : string) :
  db_profile w = Some (mkProfile (Some u)) →
  u ≠ "" →
  db_profile (setup E w).2 = db_profile w ∧
  ∃ rest, trace (setup E w).2 = trace w ++ rest ∧
          forallb (λ o, negb (is_first_run_op o)) rest = true.
Proof.
  intros Hdb Hu.
  destruct (setup_load_recorded E w u Hdb Hu) as (Hd1 & r1 & Ht1 & Hr1).
  destruct (setup_load E w) as [[userList|e] w1] eqn:Hload; cbn [snd] in *.
  2:{ rewrite (setup_run_throw E w w1 e Hload). cbn [snd]. eauto. }
  rewrite (setup_run E w w1 userList Hload). set (w2 := add_log _ w1).
  pose proof (setup_enforce_archive_only E userList w2)
    as [(Hd & _ & _) (r2 & Ht2 & Hr2)].
  split; [by rewrite Hd|].
  exists (r1 ++ r2). rewrite Ht2. cbn. rewrite Ht1, <- (assoc_L (++)).
  split; [done|]. rewrite forallb_app, Hr1. cbn.
  clear -Hr2. induction r2 as [|o r2 IH]; [done|].
  cbn in *. apply andb_prop in Hr2 as [Ho Hr2]. rewrite (IH Hr2).
  by destruct o.
Qed.

Lemma setup_keeps_recorded_root_witness :
  let w := at_start ∅ (Some (mkProfile (Some "dat://mine"))) in
  db_profile (setup (sample_env [] [3]) w).2 = Some (mkProfile (Some "dat://mine")).
Proof.
  intros w.
  destruct (setup_keeps_recorded_root (sample_env [] [3]) w "dat://mine")
    as [Hd _]; [reflexivity | discriminate |].
  rewrite Hd. reflexivity.
Defined.

(** X19.  The first run: with no url on record (none, or an empty one)
    and no external call rejecting, [setup] creates a root archive, writes
    its url to the profile row, and loads that very archive; these calls
    come first and are made once, all later calls go to the archive or to
    the resolver. *)
Theorem setup_first_run (E : Env) (w : world) (p : profile) :
  faults E = [] →
  db_profile w = Some p →
  profile_url p = None ∨ profile_url p = Some "" →
  ∃ w' rest, setup E w = (Ok tt, w') ∧
    db_profile w' = Some (mkProfile (Some (created_root_url E))) ∧
    rootArchive w' = Some (created_root_url E) ∧
    trace w' = trace w ++
      [TrashSetup; DbGet; CreateNewRootArchive; DbRun (created_root_url E);
       GetOrLoadArchive (created_root_url E); UsersSetup] ++ rest ∧
    forallb is_archive_op rest = true.
Proof.
  intros Hq Hdb Hurl.
  assert (∃ w1, setup_load E w = (Ok (users_list E), w1) ∧
            db_profile w1 = Some (mkProfile (Some (created_root_url E))) ∧
            rootArchive w1 = Some (created_root_url E) ∧
            trace w1 = trace w ++
              [TrashSetup; DbGet; CreateNewRootArchive; DbRun (created_root_url E);
               GetOrLoadArchive (created_root_url E); UsersSetup])
    as (w1 & Hload & Hd1 & Ha1 & Ht1).
  { unfold setup_load, external, logger_info. unfold_m.
    destruct Hurl as [Hurl|Hurl]; crunch; eexists; (split; [reflexivity|]); cbn;
      by rewrite <- !(assoc_L (++)). }
  rewrite (setup_run E w w1 _ Hload). set (w2 := add_log _ w1).
  destruct (setup_enforce_ok E (users_list E) w2) as [w' Hrun].
  pose proof (setup_enforce_archive_only E (users_list E) w2)
    as [(Hd & _ & Ha) (rest & Ht & Hrest)].
  rewrite Hrun in *. cbn [snd] in *.
  exists w', rest. split; [done|].
  split; [rewrite Hd; exact Hd1|]. split; [rewrite Ha; exact Ha1|].
  split; [|done]. rewrite Ht. cbn. by rewrite Ht1, <- (assoc_L (++)).
Qed.

Lemma setup_first_run_witness :
  ∃ w', setup (sample_env [] []) (at_start ∅ (Some (mkProfile None))) = (Ok tt, w') ∧
    db_profile w' = Some (mkProfile (Some "dat://root")).
Proof.
  destruct (setup_first_run (sample_env [] []) (at_start ∅ (Some (mkProfile None)))
              (mkProfile None))
    as (w' & rest & Hrun & Hd & _); [reflexivity | reflexivity | by left |].
  exists w'. split; [exact Hrun | exact Hd].
Defined.

(** ** [setup], run and run again *)

Section SetupPaths.

Variable P : PATHS_t.
Variable key : string → option string.
Implicit Types (m : gmap string node) (l : list User) (q n : string)
  (v : option node).

Lemma mkdir_fs_lookup p m q :
  mkdir_fs p m !! q =
  match m !! q with
  | Some x => Some x
  | None => if bool_decide (q = p) then Some Dir else None
  end.
Proof.
  unfold mkdir_fs. destruct (decide (q = p)) as [->|Hne].
  - rewrite bool_decide_eq_true_2 by done.
    destruct (m !! p) eqn:Hp; [by rewrite Hp | by rewrite lookup_insert_eq].
  - rewrite bool_decide_eq_false_2 by done.
    destruct (m !! p); [by destruct (m !! q)|].
    rewrite lookup_insert_ne by done. by destruct (m !! q).
Qed.

Lemma mkdirs_lookup (dirs : list string) m q :
  foldl (λ m p, mkdir_fs p m) m dirs !! q =
  match m !! q with
  | Some x => Some x
  | None => if bool_decide (q ∈ dirs) then Some Dir else None
  end.
Proof.
  revert m. induction dirs as [|p dirs IH]; intros m.
  - cbn. by destruct (m !! q).
  - cbn [foldl]. rewrite IH, mkdir_fs_lookup.
    destruct (m !! q) as [x|]; [done|].
    destruct (decide (q = p)) as [->|Hne].
    + rewrite !bool_decide_eq_true_2; [done | by left | done].
    + rewrite (bool_decide_eq_false_2 (q = p)) by done.
      destruct (decide (q ∈ dirs)).
      * rewrite !bool_decide_eq_true_2; [done | by right | done].
      * rewrite !bool_decide_eq_false_2; [done | | done].
        by intros [?|?]%elem_of_cons.
Qed.

Lemma mount_fs_lookup p k m q :
  mount_fs p k m !! q = if bool_decide (q = p) then mount_val k (m !! q) else m !! q.
Proof.
  destruct (decide (q = p)) as [->|Hne].
  - rewrite bool_decide_eq_true_2 by done. unfold mount_fs, mount_val.
    destruct k as [k|]; [|done].
    destruct (m !! p) as [[| |k0]|] eqn:Hp; rewrite ?Hp; try done.
    + destruct (String.eqb_spec k0 k) as [->|_]; [done | by rewrite lookup_insert_eq].
    + by rewrite lookup_insert_eq.
  - rewrite bool_decide_eq_false_2 by done. by apply mount_fs_other.
Qed.

Lemma user_fs_lookup m user q :
  user_fs P key m user !! q = user_val P key q (m !! q) user.
Proof.
  unfold user_fs, user_val. cbv zeta.
  destruct (isDefault user), (negb (isTemporary user)); cbn [andb];
    rewrite ?mount_fs_lookup; done.
Qed.

Lemma mounts_fold_lookup l m q :
  foldl (user_fs P key) m l !! q = foldl (user_val P key q) (m !! q) l.
Proof.
  revert m. induction l as [|user l IH]; intros m; [done|].
  cbn [foldl]. by rewrite IH, user_fs_lookup.
Qed.

Lemma settles_id : settles (λ v, v).
Proof. repeat split; try done. by right. Qed.

Lemma settles_mount_val k : settles (mount_val k).
Proof.
  destruct k as [k|]; [|exact settles_id].
  split; [|split].
  - intros [[| |k0]|] Hv; try done; destruct Hv; [right; eauto | by left].
  - intros v [->|[k0 ->]]; right; by exists k.
  - left. by intros v v' [->|[k0 ->]] [->|[k1 ->]].
Qed.

Lemma settles_compose (f g : option node → option node) :
  settles f → settles g → settles (λ v, g (f v)).
Proof.
  intros (Hf1 & Hf2 & Hf3) (Hg1 & Hg2 & Hg3). split; [|split].
  - intros v Hv. by rewrite (Hf1 v Hv), (Hg1 v Hv).
  - intros v Hv. by apply Hg2, Hf2.
  - destruct Hf3 as [Hf3|Hf3].
    + left. intros v v' Hv Hv'. by rewrite (Hf3 v v' Hv Hv').
    + destruct Hg3 as [Hg3|Hg3].
      * left. intros v v' Hv Hv'. rewrite (Hf3 v Hv), (Hf3 v' Hv'). by apply Hg3.
      * right. intros v Hv. by rewrite (Hf3 v Hv), (Hg3 v Hv).
Qed.

Lemma settles_idem (f : option node → option node) v :
  settles f → f (f v) = f v.
Proof.
  intros (Hf1 & Hf2 & Hf3).
  destruct (decide (v = None)) as [->|Hv].
  { assert (free_or_mount None) as H0 by by left.
    destruct Hf3 as [Hf3|Hf3]; [by apply Hf3; [apply Hf2|] | by rewrite !(Hf3 None H0)]. }
  destruct v as [[c| |k]|]; try done.
  - assert (¬ free_or_mount (Some (File c))) as Hn by (intros [?|[? ?]]; done).
    by rewrite !(Hf1 _ Hn).
  - assert (¬ free_or_mount (Some Dir)) as Hn by (intros [?|[? ?]]; done).
    by rewrite !(Hf1 _ Hn).
  - assert (free_or_mount (Some (Mount k))) as H0 by (right; eauto).
    destruct Hf3 as [Hf3|Hf3]; [by apply Hf3; [apply Hf2|] | by rewrite !(Hf3 _ H0)].
Qed.

Lemma settles_user_val q user : settles (λ v, user_val P key q v user).
Proof.
  unfold user_val. cbv zeta.
  apply (settles_compose
           (λ v, if isDefault user && bool_decide (q = DEFAULT_USER P)
                 then mount_val (key (url user)) v else v)
           (λ v1, if negb (isTemporary user) && bool_decide (q = USER P (label user))
                  then mount_val (key (url user)) v1 else v1)).
  - destruct (_ && _); [apply settles_mount_val | apply settles_id].
  - destruct (_ && _); [apply settles_mount_val | apply settles_id].
Qed.

Lemma settles_users l q : settles (λ v, foldl (user_val P key q) v l).
Proof.
  induction l as [|user l IH]; [exact settles_id|].
  cbn [foldl].
  exact (settles_compose (λ v, user_val P key q v user)
           (λ v, foldl (user_val P key q) v l) (settles_user_val q user) IH).
Qed.

Hypothesis P_wf : PATHS_wf P.

Variable users : list User.

Lemma strip_prefix_Some (p s r : string) :
  strip_prefix p s = Some r → s = p +:+ r.
Proof.
  revert s. induction p as [|c p IH]; intros s; cbn [strip_prefix].
  - by intros [= ->].
  - destruct s as [|d s]; [done|]. destruct (decide (c = d)) as [->|]; [|done].
    intros Hs. by rewrite (IH s Hs).
Qed.

(** Only direct entries of [dir] are listed. *)
Lemma readdir_names_sound m (dir n : string) :
  n ∈ readdir_names m dir →
  is_Some (m !! (dir +:+ "/" +:+ n)) ∧ n ≠ "" ∧ has_slash n = false.
Proof.
  unfold readdir_names. intros ([path x] & Hin & Hchild)%list_elem_of_omap.
  apply elem_of_map_to_list in Hin. unfold child_name in Hchild. cbn [fst] in Hchild.
  destruct (strip_prefix (dir +:+ "/") path) as [r|] eqn:Hstrip; [|done].
  apply strip_prefix_Some in Hstrip. rewrite string_app_assoc in Hstrip.
  destruct (bool_decide (r = "")) eqn:Hr; [done|].
  destruct (has_slash r) eqn:Hslash; [done|].
  injection Hchild as <-. apply bool_decide_eq_false in Hr.
  rewrite <- Hstrip. eauto.
Qed.

(** After a sweep there is nothing left to sweep. *)
Lemma sweep_fixpoint m :
  let m3 := foldl (sweep_fs P users) m (readdir_names m (USERS P)) in
  foldl (sweep_fs P users) m3 (readdir_names m3 (USERS P)) = m3.
Proof.
  intros m3. apply map_eq. intros q.
  destruct (sweep_fold_frame P users (readdir_names m3 (USERS P)) m3 q)
    as [Hr|(_ & n & k & Hn & Hfind & -> & Hm3)]; [done|].
  exfalso.
  destruct (sweep_fold_frame P users (readdir_names m (USERS P)) m (USER P n))
    as [Hr|[Hr _]]; fold m3 in Hr; [|congruence].
  apply readdir_names_sound in Hn as (_ & Hne & Hslash).
  assert (n ∈ readdir_names m (USERS P)) as Hin.
  { apply (readdir_names_complete _ _ _ (Mount k)); [|done..].
    rewrite <- (USER_under_USERS P P_wf). congruence. }
  pose proof (sweep_fold_detaches P users _ m n k Hin Hfind) as Hgone.
  fold m3 in Hgone. rewrite Hgone in Hm3; [done | congruence].
Qed.

Lemma setup_fs_fixed m q :
  q ∈ fixed_dirs P → is_Some (setup_fs P key users m !! q).
Proof.
  intros Hq. unfold setup_fs. cbv zeta.
  match goal with
  | |- is_Some (foldl _ ?m2 ?names !! _) =>
      destruct (sweep_fold_frame P users names m2 q)
        as [->|(_ & n & k & _ & _ & -> & _)]
  end.
  - rewrite mounts_fold_frame.
    + unfold dirs_fs. rewrite mkdirs_lookup.
      destruct (m !! q); [eauto|]. rewrite bool_decide_eq_true_2 by done. eauto.
    + intros user _ _ ->. by apply (alias_not_fixed P P_wf).
    + intros user _ _ ->. by apply (USER_not_fixed P P_wf (label user)).
  - by destruct (USER_not_fixed P P_wf n).
Qed.

(** Run on its own result, [setup] finds everything in place. *)
Lemma setup_fs_idem m :
  setup_fs P key users (setup_fs P key users m) = setup_fs P key users m.
Proof.
  set (m3 := setup_fs P key users m).
  assert (dirs_fs P m3 = m3) as HD.
  { apply map_eq. intros q. unfold dirs_fs. rewrite mkdirs_lookup.
    destruct (m3 !! q) as [x|] eqn:Hq; [done|].
    rewrite bool_decide_eq_false_2; [done|]. intros Hin.
    destruct (setup_fs_fixed m q Hin) as [x Hx]. fold m3 in Hx. congruence. }
  assert (foldl (user_fs P key) m3 users = m3) as HG.
  { apply map_eq. intros q. unfold m3 at 2. unfold setup_fs. cbv zeta.
    match goal with
    | |- _ = foldl _ ?m2 ?names !! _ =>
        destruct (sweep_fold_frame P users names m2 q)
          as [Hr|(Hr & n & k & _ & Hfind & Hq & _)]
    end.
    - rewrite mounts_fold_lookup. unfold m3, setup_fs. cbv zeta.
      rewrite Hr, mounts_fold_lookup.
      apply (settles_idem (λ v, foldl (user_val P key q) v users)), settles_users.
    - rewrite Hr. rewrite mounts_fold_frame.
      + unfold m3, setup_fs. cbv zeta. exact Hr.
      + intros user _ _. rewrite Hq. intros Heq. by apply (alias_not_USER P P_wf n).
      + intros user Hin _. rewrite Hq. intros Heq%(USER_inj P _ _ P_wf). subst n.
        by destruct (proj1 (find_label_none users (label user)) Hfind user Hin). }
  unfold setup_fs at 1. cbv zeta. rewrite HD, HG.
  unfold m3, setup_fs. cbv zeta. apply sweep_fixpoint.
Qed.

(** Files and directories come through [setup] untouched. *)
Lemma setup_fs_keeps m q x :
  m !! q = Some x → (∀ k, x ≠ Mount k) →
  setup_fs P key users m !! q = Some x.
Proof.
  intros Hq Hx. unfold setup_fs. cbv zeta.
  assert (foldl (user_fs P key) (dirs_fs P m) users !! q = Some x) as H2.
  { rewrite mounts_fold_lookup. unfold dirs_fs. rewrite mkdirs_lookup, Hq.
    destruct (settles_users users q) as (H1 & _). apply H1.
    intros [?|[k ?]]; [done|]. destruct (Hx k). congruence. }
  match goal with
  | |- foldl _ ?m2 ?names !! _ = _ =>
      destruct (sweep_fold_frame P users names m2 q)
        as [->|(_ & n & k & _ & _ & _ & Hm)]
  end; [done|]. destruct (Hx k). congruence.
Qed.

(** A common directory that was missing is there afterwards. *)
Lemma setup_fs_makes m q :
  q ∈ fixed_dirs P → m !! q = None → setup_fs P key users m !! q = Some Dir.
Proof.
  intros Hin Hq. unfold setup_fs. cbv zeta.
  match goal with
  | |- foldl _ ?m2 ?names !! _ = _ =>
      destruct (sweep_fold_frame P users names m2 q)
        as [->|(_ & n & k & _ & _ & -> & _)]
  end.
  - rewrite mounts_fold_frame.
    + unfold dirs_fs. by rewrite mkdirs_lookup, Hq, bool_decide_eq_true_2.
    + intros user _ _ ->. by apply (alias_not_fixed P P_wf).
    + intros user _ _ ->. by apply (USER_not_fixed P P_wf (label user)).
  - by destruct (USER_not_fixed P P_wf n).
Qed.

End SetupPaths.

Section SetupRuns.

Variable E : Env.

Lemma setup_dirs_quiet (w : world) (a : string) :
  faults E = [] → rootArchive w = Some a →
  ∃ w', setup_dirs E w = (Ok tt, w') ∧
    rootArchive w' = Some a ∧ fs w' = dirs_fs (PATHS E) (fs w).
Proof.
  intros Hq Ha. unfold setup_dirs, dirs_fs, fixed_dirs. cbn [foldl].
  repeat
    (rewrite bind_run;
     match goal with
     | Ha0 : rootArchive ?w0 = Some a |- context [ensureDir E ?p ?w0] =>
         let w1 := fresh "w" in
         let Ha1 := fresh "Ha" in
         let Hf := fresh "Hf" in
         destruct (ensureDir_quiet E p w0 a Hq Ha0) as (w1 & -> & Ha1 & Hf);
         rewrite <- Hf; clear Hf Ha0
     end).
  match goal with
  | Ha0 : rootArchive ?w0 = Some a |- context [ensureDir E ?p ?w0] =>
      destruct (ensureDir_quiet E p w0 a Hq Ha0) as (w' & -> & Ha' & Hf)
  end.
  exists w'. by rewrite Hf.
Qed.

(** When no external call rejects, [setup] completes and leaves the paths
    of [setup_fs], with the root url on record. *)
Lemma setup_quiet_fs (w : world) (p : profile) :
  faults E = [] → db_profile w = Some p →
  ∃ w' root, setup E w = (Ok tt, w') ∧
    db_profile w' = Some (mkProfile (Some root)) ∧
    fs w' = setup_fs (PATHS E) (url_key E) (users_list E) (fs w).
Proof.
  intros Hq Hdb.
  destruct (setup_load_quiet E w p Hq Hdb) as (w1 & root0 & Hload & _ & _).
  destruct (setup_load_ok E w w1 _ Hload) as (root & Ha1 & _ & Hd1 & Hfs1).
  rewrite (setup_run E w w1 _ Hload). set (w2 := add_log _ w1).
  pose proof (setup_enforce_archive_only E (users_list E) w2) as [(Hd & _) _].
  unfold setup_enforce in *. rewrite try_catch_run in *. rewrite bind_run in *.
  destruct (setup_dirs_quiet w2 root Hq Ha1) as (w3 & Hr3 & Ha3 & Hfs3).
  rewrite Hr3 in *. cbv beta iota in *. rewrite bind_run in *.
  destruct (setup_mounts_quiet E (users_list E) w3 root Hq Ha3)
    as (w4 & Hr4 & Ha4 & Hfs4).
  rewrite Hr4 in *. cbv beta iota in *.
  destruct (setup_sweep_quiet E (users_list E) w4 root Hq Ha4)
    as (w5 & Hr5 & _ & Hfs5).
  rewrite Hr5 in *. cbn [snd] in Hd.
  exists w5, root. split; [done|]. split; [by rewrite Hd|].
  unfold setup_fs. cbv zeta. rewrite Hfs5, Hfs4, Hfs3. subst w2. cbn.
  by rewrite Hfs1.
Qed.

End SetupRuns.

(** X20.  [setup] destroys nothing that is not a mount: with no external
    call rejecting, every file and every directory of the archive is
    afterwards where it was, as it was (so a file in the way of a mount
    or of a directory stays); and every common directory that was
    missing has been made. *)
Theorem setup_keeps_nodes (E : Env) (w : world) (p : profile) :
  faults E = [] →
  db_profile w = Some p →
  PATHS_wf (PATHS E) →
  ∃ w', setup E w = (Ok tt, w') ∧
    (∀ q x, fs w !! q = Some x → (∀ k, x ≠ Mount k) → fs w' !! q = Some x) ∧
    (∀ q, q ∈ fixed_dirs (PATHS E) → fs w !! q = None → fs w' !! q = Some Dir).
Proof.
  intros Hq Hdb HP.
  destruct (setup_quiet_fs E w p Hq Hdb) as (w' & root & Hrun & _ & Hfs).
  exists w'. split; [done|]. rewrite Hfs. split.
  - intros q x. apply setup_fs_keeps.
  - intros q. by apply setup_fs_makes.
Qed.

Lemma setup_keeps_nodes_witness :
  let carol := mkUser "carol" "dat://cccc" false false in
  let w := at_start {["/users/carol" := File "notes"; "/settings" := File "old"]}
                    (Some (mkProfile None)) in
  ∃ w', setup (sample_env [carol] []) w = (Ok tt, w') ∧
    fs w' !! "/users/carol" = Some (File "notes") ∧
    fs w' !! "/settings" = Some (File "old") ∧
    fs w' !! "/library" = Some Dir.
Proof.
  intros carol w.
  destruct (setup_keeps_nodes (sample_env [carol] []) w (mkProfile None))
    as (w' & Hrun & Hkeep & Hmake);
    [reflexivity | reflexivity | apply sample_PATHS_wf |].
  exists w'. split; [exact Hrun|]. split; [|split].
  - by apply Hkeep.
  - by apply Hkeep.
  - apply Hmake; [|reflexivity].
    cbn. do 3 (apply elem_of_cons; right). apply elem_of_cons. by left.
Defined.

(** X21.  [setup] can be run again: with no external call rejecting, a
    second [setup] right after the first completes as well and leaves
    the archive exactly as the first one left it. *)
Theorem setup_idempotent (E : Env) (w : world) (p : profile) :
  faults E = [] →
  db_profile w = Some p →
  PATHS_wf (PATHS E) →
  ∃ w1 w2,
    setup E w = (Ok tt, w1) ∧
    setup E w1 = (Ok tt, w2) ∧
    fs w2 = fs w1.
Proof.
  intros Hq Hdb HP.
  destruct (setup_quiet_fs E w p Hq Hdb) as (w1 & root & Hr1 & Hd1 & Hfs1).
  destruct (setup_quiet_fs E w1 _ Hq Hd1) as (w2 & root' & Hr2 & _ & Hfs2).
  exists w1, w2. split; [done|]. split; [done|].
  rewrite Hfs2, Hfs1. by apply setup_fs_idem.
Qed.

Lemma setup_idempotent_witness :
  let alice := mkUser "alice" "dat://aaaa" true false in
  let w := at_start {["/users/bob" := Mount "bbbb"]} (Some (mkProfile None)) in
  ∃ w1 w2,
    setup (sample_env [alice] []) w = (Ok tt, w1) ∧
    setup (sample_env [alice] []) w1 = (Ok tt, w2) ∧
    fs w2 = fs w1.
Proof.
  intros alice w.
  destruct (setup_idempotent (sample_env [alice] []) w (mkProfile None))
    as (w1 & w2 & H); [reflexivity | reflexivity | apply sample_PATHS_wf |].
  by exists w1, w2.
Defined.

(** X22.  One path at a time: whatever the world and whatever fails,
    [ensureDir(p)] and [ensureMount(p, url)] complete, and no path other
    than [p] is changed by them -- a call that fails is logged and costs
    the other paths nothing. *)
Theorem ensure_calls_local (E : Env) (w : world) (p u : string) :
  (∃ w', ensureDir E p w = (Ok tt, w') ∧
         ∀ q, q ≠ p → fs w' !! q = fs w !! q) ∧
  (∃ w', ensureMount E p u w = (Ok tt, w') ∧
         ∀ q, q ≠ p → fs w' !! q = fs w !! q).
Proof.
  split.
  - destruct (ensureDir_any E p w) as (w' & Hr & _ & Hf). by exists w'.
  - destruct (ensureMount_any E p u w) as (w' & Hr & _ & Hf & _). by exists w'.
Qed.
